(** * Desired-state differ and approval-gated enforcement of the orchestrator

    A shallow embedding of
    - [orchestrator/utils/jsonpatcher.py]  ([_path], [_diff], [make_patch]),
    - [orchestrator/connectors/jira.py]    ([JiraConnector.get_issue]),
    - [orchestrator/app.py]                ([zpa_enforce] and its counters,
                                            [zpa_diff]),
    - [orchestrator/connectors/zpa.py]     ([ZPAConnector.get],
                                            [get_current_policies]),
    - [orchestrator/utils/merge.py]        ([merge_iocs], [top_values]),
    - [orchestrator/utils/markdown.py]     ([ioc_table]),
    - [orchestrator/utils/jira_map.py]     ([load_map], [map_priority]),
    followed by the properties of the differ and of the endpoints. *)

From Stdlib Require Import List String Ascii ZArith Bool Permutation Sorted.
From Stdlib Require OrderedTypeEx.
Import ListNotations.
Local Open Scope string_scope.
Local Open Scope list_scope.

(** ** Values handled by the service

    The trees are what [json.loads] builds: [None], [bool], [int], [float],
    [str], [list] and [dict].  A [dict] keeps its keys in insertion order, so
    it is an association list here; its keys are unique ([wf_json]).  A
    finite [float] is the dyadic number [m * 2^e].  [json.loads] also reads
    [NaN], [Infinity], [-Infinity] and numbers too large for a double
    ([1e999]): [JNaN] and [JInf].  A NaN is not equal to itself, yet a list
    or a dict that holds it is, as long as it is the same float object on
    both sides; [obj] names the object ([json.loads] hands out one and the
    same object for every NaN it reads).  Strings are sequences of UTF-8
    bytes. *)

#[warnings="-register-all"]
Inductive json : Type :=
| JNull
| JBool (b : bool)
| JInt (z : Z)
| JFloat (m e : Z)
| JStr (s : string)
| JArr (items : list json)
| JObj (entries : list (string * json))
| JNaN (obj : nat)
| JInf (negative : bool).

(** The result of Python's [type(x)] on such a value. *)
Inductive pytype : Type :=
| NoneType | bool_t | int_t | float_t | str_t | list_t | dict_t.

Definition py_type (j : json) : pytype :=
  match j with
  | JNull => NoneType
  | JBool _ => bool_t
  | JInt _ => int_t
  | JFloat _ _ => float_t
  | JStr _ => str_t
  | JArr _ => list_t
  | JObj _ => dict_t
  | JNaN _ | JInf _ => float_t
  end.

Definition pytype_eqb (a b : pytype) : bool :=
  match a, b with
  | NoneType, NoneType | bool_t, bool_t | int_t, int_t | float_t, float_t
  | str_t, str_t | list_t, list_t | dict_t, dict_t => true
  | _, _ => false
  end.

(** [d.keys()], [k in d] and [d[k]] / [d.get(k)]. *)
Definition keys (d : list (string * json)) : list string := map fst d.

Definition mem (k : string) (l : list string) : bool := existsb (String.eqb k) l.

Fixpoint lookup (k : string) (d : list (string * json)) : option json :=
  match d with
  | [] => None
  | (k', v) :: d' => if String.eqb k k' then Some v else lookup k d'
  end.

Fixpoint nodupb (l : list string) : bool :=
  match l with
  | [] => true
  | k :: l' => negb (mem k l') && nodupb l'
  end.

(** Well-formed trees: every mapping has unique keys, at every depth. *)
Fixpoint wf_json (j : json) : bool :=
  match j with
  | JArr items => forallb wf_json items
  | JObj entries =>
      nodupb (map fst entries)
      && forallb (fun p : string * json => let (_, v) := p in wf_json v) entries
  | _ => true
  end.

(** *** Python's [==]

    Numbers compare by value across [bool], [int] and [float]
    ([True == 1], [1 == 1.0]); an infinity is equal to the infinity of the
    same sign only, a NaN to nothing, itself included.  Lists compare
    element-wise and dicts as mappings, whatever the insertion order; both
    compare their members with [x is y or x == y], and [x is y] matters for
    NaN alone, every other value being [==] to itself. *)

Definition dyadic_eqb (a b : Z * Z) : bool :=
  let (m1, e1) := a in
  let (m2, e2) := b in
  let e := Z.min e1 e2 in
  (m1 * 2 ^ (e1 - e) =? m2 * 2 ^ (e2 - e))%Z.

Definition numeric (j : json) : option (Z * Z) :=
  match j with
  | JBool b => Some (if b then 1%Z else 0%Z, 0%Z)
  | JInt z => Some (z, 0%Z)
  | JFloat m e => Some (m, e)
  | _ => None
  end.

(** [x is y] for two NaN. *)
Definition identical_nan (x y : json) : bool :=
  match x, y with
  | JNaN i, JNaN j => Nat.eqb i j
  | _, _ => false
  end.

Fixpoint py_eqb (a b : json) {struct a} : bool :=
  match a with
  | JNull => match b with JNull => true | _ => false end
  | JBool _ | JInt _ | JFloat _ _ =>
      match numeric a, numeric b with
      | Some x, Some y => dyadic_eqb x y
      | _, _ => false
      end
  | JStr s => match b with JStr t => String.eqb s t | _ => false end
  | JArr xs =>
      match b with
      | JArr ys =>
          (fix items_eqb (xs : list json) (ys : list json) {struct xs} : bool :=
             match xs, ys with
             | [], [] => true
             | x :: xs', y :: ys' =>
                 (identical_nan x y || py_eqb x y) && items_eqb xs' ys'
             | _, _ => false
             end) xs ys
      | _ => false
      end
  | JObj xs =>
      match b with
      | JObj ys =>
          Nat.eqb (List.length xs) (List.length ys)
          && (fix entries_eqb (xs : list (string * json)) {struct xs} : bool :=
                match xs with
                | [] => true
                | (k, v) :: xs' =>
                    match lookup k ys with
                    | Some w =>
                        (identical_nan v w || py_eqb v w) && entries_eqb xs'
                    | None => false
                    end
                end) xs
      | _ => false
      end
  | JNaN _ => false
  | JInf n => match b with JInf n' => Bool.eqb n n' | _ => false end
  end.

(** [x is y or x == y], the comparison of two members of a list or of two
    values of a dict. *)
Definition item_eqb (x y : json) : bool := identical_nan x y || py_eqb x y.

(** ** jsonpatcher.py *)

Inductive op_name : Type := add | remove | replace.

(** One entry of the patch: [{"op": .., "path": .., "value": ..}], the
    ["value"] key being absent from a [remove]. *)
Record patch_op : Type := mk_op {
  op : op_name;
  path : string;
  value : option json
}.

(** [sep.join(parts)]. *)
Fixpoint join (sep : string) (parts : list string) : string :=
  match parts with
  | [] => ""
  | [p] => p
  | p :: rest => p ++ sep ++ join sep rest
  end.

(** [s.replace(c, by)] for a one-character pattern [c]. *)
Fixpoint str_replace (c : ascii) (by_ : string) (s : string) : string :=
  match s with
  | EmptyString => EmptyString
  | String x s' =>
      if Ascii.eqb x c then by_ ++ str_replace c by_ s'
      else String x (str_replace c by_ s')
  end.

Definition escape (key : string) : string :=
  str_replace "/" "~1" (str_replace "~" "~0" key).

Definition is_nil {A} (l : list A) : bool :=
  match l with [] => true | _ => false end.

(** [_path(parent, key)]: only the last segment, [key], is escaped. *)
Definition _path (parent : list string) (key : string) : string :=
  let esc := escape key in
  if negb (is_nil parent) || negb (String.eqb key "")
  then "/" ++ join "/" (parent ++ [esc])
  else "/".

(** Iteration order of the set [old.keys() - new.keys()].  A Python [set]
    enumerates its members in hash order, which the program does not
    control: the order is an interface, with the one law that the
    enumeration lists exactly the members of the difference. *)
Class KeySetOrder : Type := {
  keys_minus : list string -> list string -> list string;
  keys_minus_perm : forall a b,
    Permutation (keys_minus a b) (filter (fun k => negb (mem k b)) a)
}.

(** Two enumerations: the one that happens to follow the insertion order
    of [old], and its reverse. *)
#[local] Instance reversed_order : KeySetOrder := {|
  keys_minus := fun a b => rev (filter (fun k => negb (mem k b)) a);
  keys_minus_perm := fun a b => Permutation_sym (Permutation_rev _)
|}.

#[local] Instance insertion_order : KeySetOrder := {|
  keys_minus := fun a b => filter (fun k => negb (mem k b)) a;
  keys_minus_perm := fun a b => Permutation_refl _
|}.

Section Differ.
Context {KO : KeySetOrder}.

Definition remove_ops (parent : list string) (ks : list string)
    (patch : list patch_op) : list patch_op :=
  fold_left (fun p k => p ++ [mk_op remove (_path parent k) None]) ks patch.

(** [_diff(old, new, parent, patch)]: the patch list is threaded through
    the calls, every [append] adds at its end.  The branch on
    [isinstance(old, dict)] / [isinstance(old, list)] is taken on [new],
    whose type is that of [old] once the first test has passed (so the
    branch that pairs a mapping [new] with another [old] is never taken);
    the loop [for k in new.keys()] reads [new[k]], the value stored with
    [k]. *)
Fixpoint _diff (old new : json) (parent : list string)
    (patch : list patch_op) {struct new} : list patch_op :=
  if negb (pytype_eqb (py_type old) (py_type new)) then
    patch ++ [mk_op replace
                (if is_nil parent then "/" else "/" ++ join "/" parent)
                (Some new)]
  else
    match new with
    | JObj nentries =>
        match old with
        | JObj oentries =>
            let patch1 :=
              remove_ops parent (keys_minus (keys oentries) (keys nentries))
                patch in
            (fix each_key (l : list (string * json))
                 (patch : list patch_op) {struct l} : list patch_op :=
               match l with
               | [] => patch
               | (k, v) :: l' =>
                   each_key l'
                     (match lookup k oentries with
                      | None =>
                          patch ++ [mk_op add (_path parent k) (Some v)]
                      | Some ov => _diff ov v (parent ++ [k]) patch
                      end)
               end) nentries patch1
        | _ => patch
        end
    | _ =>
        if negb (py_eqb old new)
        then patch ++ [mk_op replace ("/" ++ join "/" parent) (Some new)]
        else patch
    end.

Definition make_patch (current desired : json) : list patch_op :=
  _diff current desired [] [].

End Differ.

(** [s.upper()] on the name of an operation. *)
Definition upper_ascii (c : ascii) : ascii :=
  let n := nat_of_ascii c in
  if (97 <=? n)%nat && (n <=? 122)%nat then ascii_of_nat (n - 32) else c.

Fixpoint upper (s : string) : string :=
  match s with
  | EmptyString => EmptyString
  | String c s' => String (upper_ascii c) (upper s')
  end.

Definition op_text (o : op_name) : string :=
  match o with
  | add => "add"
  | remove => "remove"
  | replace => "replace"
  end.

Definition summarize_patch (patch : list patch_op) : list string :=
  map (fun p => (upper (op_text (op p)) ++ " " ++ path p)%string) patch.

(** *** Names for the parts of [==] and of [_diff] *)

(** The two loops of [==], named. *)
Fixpoint items_eqb (xs ys : list json) {struct xs} : bool :=
  match xs, ys with
  | [], [] => true
  | x :: xs', y :: ys' => item_eqb x y && items_eqb xs' ys'
  | _, _ => false
  end.

Definition entries_eqb (ys : list (string * json))
    : list (string * json) -> bool :=
  fix entries_eqb (xs : list (string * json)) : bool :=
    match xs with
    | [] => true
    | (k, v) :: xs' =>
        match lookup k ys with
        | Some w => item_eqb v w && entries_eqb xs'
        | None => false
        end
    end.

Section DifferShape.
Context {KO : KeySetOrder}.

(** What one key of [new] contributes. *)
Definition key_ops (oentries : list (string * json)) (parent : list string)
    (kv : string * json) : list patch_op :=
  let (k, v) := kv in
  match lookup k oentries with
  | None => [mk_op add (_path parent k) (Some v)]
  | Some ov => _diff ov v (parent ++ [k]) []
  end.

Definition removals (parent : list string) (ks : list string)
    : list patch_op :=
  map (fun k => mk_op remove (_path parent k) None) ks.

(** The loop [for k in new.keys()] of [_diff]. *)
Definition each_key (oentries : list (string * json))
    (parent : list string)
    : list (string * json) -> list patch_op -> list patch_op :=
  fix each_key (l : list (string * json)) (patch : list patch_op)
      : list patch_op :=
    match l with
    | [] => patch
    | (k, v) :: l' =>
        each_key l'
          (match lookup k oentries with
           | None => patch ++ [mk_op add (_path parent k) (Some v)]
           | Some ov => _diff ov v (parent ++ [k]) patch
           end)
    end.
End DifferShape.

(** Induction over a tree with the hypothesis available for every element
    of a sequence and every value of a mapping. *)
Section JsonInduction.
Variable P : json -> Prop.
Hypothesis HNull : P JNull.
Hypothesis HBool : forall b, P (JBool b).
Hypothesis HInt : forall z, P (JInt z).
Hypothesis HFloat : forall m e, P (JFloat m e).
Hypothesis HStr : forall s, P (JStr s).
Hypothesis HArr : forall items, Forall P items -> P (JArr items).
Hypothesis HObj :
  forall entries, Forall (fun p => P (snd p)) entries -> P (JObj entries).
Hypothesis HNaN : forall obj, P (JNaN obj).
Hypothesis HInf : forall negative, P (JInf negative).

Fixpoint json_nested_ind (j : json) : P j :=
  match j with
  | JNull => HNull
  | JBool b => HBool b
  | JInt z => HInt z
  | JFloat m e => HFloat m e
  | JStr s => HStr s
  | JArr items =>
      HArr items
        ((fix all (l : list json) : Forall P l :=
            match l with
            | [] => Forall_nil P
            | x :: l' => Forall_cons x (json_nested_ind x) (all l')
            end) items)
  | JObj entries =>
      HObj entries
        ((fix all (l : list (string * json))
            : Forall (fun p => P (snd p)) l :=
            match l with
            | [] => Forall_nil _
            | p :: l' =>
                Forall_cons p (json_nested_ind (snd p)) (all l')
            end) entries)
  | JNaN obj => HNaN obj
  | JInf negative => HInf negative
  end.
End JsonInduction.

(** ** Equal trees, whatever the order of their keys *)

(** Two trees are the same value kind by kind when they have the same
    scalars of the same type in the same places (for NaN: the same object),
    sequences of the same elements, and mappings with the same keys and the
    same values, the keys being enumerated in any order. *)
Definition same_entry (R : json -> json -> Prop) (p q : string * json)
    : Prop :=
  fst p = fst q /\ R (snd p) (snd q).

#[warnings="-register-all"]
Inductive same_tree : json -> json -> Prop :=
| same_null : same_tree JNull JNull
| same_bool b : same_tree (JBool b) (JBool b)
| same_int z : same_tree (JInt z) (JInt z)
| same_float m e : same_tree (JFloat m e) (JFloat m e)
| same_str s : same_tree (JStr s) (JStr s)
| same_arr xs ys : Forall2 same_tree xs ys -> same_tree (JArr xs) (JArr ys)
| same_obj xs xs' ys :
    NoDup (keys xs) ->
    Permutation xs xs' ->
    Forall2 (same_entry same_tree) xs' ys ->
    same_tree (JObj xs) (JObj ys)
| same_nan obj : same_tree (JNaN obj) (JNaN obj)
| same_inf negative : same_tree (JInf negative) (JInf negative).

Definition same_value (x y : option json) : Prop :=
  match x, y with
  | Some a, Some b => same_tree a b
  | None, None => True
  | _, _ => False
  end.

(** Two operations with the same name and path and the same value. *)
Definition same_op (p q : patch_op) : Prop :=
  op p = op q /\ path p = path q /\ same_value (value p) (value q).

(** Two patches holding the same operations, in any order. *)
Definition same_ops (l l' : list patch_op) : Prop :=
  exists m, Permutation l m /\ Forall2 same_op m l'.

Definition same_lookup (R : json -> json -> Prop) (x y : option json)
    : Prop :=
  match x, y with
  | Some a, Some b => R a b
  | None, None => True
  | _, _ => False
  end.

(** ** The process around [zpa_enforce]

    [zpa_enforce] reads one environment variable, performs one HTTP request
    through the Jira connector and increments Prometheus counters.  The
    environment and the network are collaborators; a computation threads the
    counters and the log of requests, and either returns or raises. *)

Inductive exn : Type :=
| TimeoutException (msg : string)
| ConnectError (msg : string)
| AttributeError (msg : string).

(** What [await session.get(url, ..)] does: it raises, or it yields a
    response [r] with [r.status_code], [r.text] and the outcome of
    [r.json()] ([None] when [r.json()] raises). *)
Inductive http_reply : Type :=
| Failed (e : exn)
| Response (status_code : Z) (text : string) (parsed : option json).

Record world : Type := mk_world {
  ZPA_ENFORCE_ATTEMPTS : nat;
  ZPA_ENFORCE_APPLIED : nat;
  ZPA_ENFORCE_BLOCKED : nat;
  requests : list string
}.

Inductive result (A : Type) : Type :=
| Returned (a : A)
| Raised (e : exn).
Arguments Returned {A} a.
Arguments Raised {A} e.

Definition M (A : Type) : Type := world -> result A * world.

Definition ret {A} (a : A) : M A := fun w => (Returned a, w).
Definition raise {A} (e : exn) : M A := fun w => (Raised e, w).
Definition bind {A B} (m : M A) (k : A -> M B) : M B :=
  fun w =>
    match m w with
    | (Returned a, w') => k a w'
    | (Raised e, w') => (Raised e, w')
    end.

Notation "x <- m ;; k" := (bind m (fun x => k))
  (at level 61, m at next level, right associativity).
Notation "m ;; k" := (bind m (fun _ => k))
  (at level 61, right associativity).

(** [Counter.inc()] on each of the three counters. *)
Definition inc_attempts : M unit := fun w =>
  (Returned tt,
   mk_world (S (ZPA_ENFORCE_ATTEMPTS w)) (ZPA_ENFORCE_APPLIED w)
            (ZPA_ENFORCE_BLOCKED w) (requests w)).
Definition inc_applied : M unit := fun w =>
  (Returned tt,
   mk_world (ZPA_ENFORCE_ATTEMPTS w) (S (ZPA_ENFORCE_APPLIED w))
            (ZPA_ENFORCE_BLOCKED w) (requests w)).
Definition inc_blocked : M unit := fun w =>
  (Returned tt,
   mk_world (ZPA_ENFORCE_ATTEMPTS w) (ZPA_ENFORCE_APPLIED w)
            (S (ZPA_ENFORCE_BLOCKED w)) (requests w)).

(** [s.lower()]; only the ASCII letters matter for a comparison with
    ["true"], no other character lowers to one of its letters. *)
Definition lower_ascii (c : ascii) : ascii :=
  let n := nat_of_ascii c in
  if (65 <=? n)%nat && (n <=? 90)%nat then ascii_of_nat (n + 32) else c.

Fixpoint lower (s : string) : string :=
  match s with
  | EmptyString => EmptyString
  | String c s' => String (lower_ascii c) (lower s')
  end.

(** [type(x).__name__]. *)
Definition type_name (j : json) : string :=
  match j with
  | JNull => "NoneType"
  | JBool _ => "bool"
  | JInt _ => "int"
  | JFloat _ _ => "float"
  | JStr _ => "str"
  | JArr _ => "list"
  | JObj _ => "dict"
  | JNaN _ | JInf _ => "float"
  end.

(** [d.get(key, default)]; only a [dict] has the method. *)
Definition py_get (d : json) (key : string) (default : json) : M json :=
  match d with
  | JObj entries =>
      ret (match lookup key entries with Some v => v | None => default end)
  | _ => raise (AttributeError
                  ("'" ++ type_name d ++ "' object has no attribute 'get'"))
  end.

(** [x in l] for a list of strings [l]. *)
Definition py_in (x : json) (l : list string) : bool :=
  existsb (fun a => py_eqb x (JStr a)) l.

(** Text that Python's formatting produces inside the f-string of the
    blocked reason: [str(x)] for the status, [repr(l)] for the allowlist.
    Both belong to the interpreter; [str] of a string is the string. *)
Class PyFormat : Type := {
  py_str : json -> string;
  py_repr_list : list string -> string;
  py_str_JStr : forall s, py_str (JStr s) = s
}.

(** The response of the endpoint, a dict with a ["status"] key and, by
    outcome, ["reason"] or ["applied_ops"] and ["note"]. *)
Record decision : Type := mk_decision {
  status : string;
  reason : option string;
  applied_ops : option nat;
  note : option string
}.

Record JiraConnector : Type := mk_jira {
  base : string;
  email : string;
  token : string
}.

Section Enforce.
Context {PF : PyFormat}.
(** [os.getenv] without its default, and the HTTP session of the
    connector. *)
Variable getenv : string -> option string.
Variable session_get : string -> http_reply.
Variable jira : JiraConnector.

Definition os_getenv (name default : string) : string :=
  match getenv name with Some v => v | None => default end.

(** [JiraConnector.get_issue]: a failure of [r.json()] is swallowed and
    replaced by an ad hoc dict; a failure of the request itself is not
    caught. *)
Definition get_issue (self : JiraConnector) (issue_key : string) : M json :=
  fun w =>
    let url := (base self ++ "/rest/api/3/issue/" ++ issue_key)%string in
    let w' := mk_world (ZPA_ENFORCE_ATTEMPTS w) (ZPA_ENFORCE_APPLIED w)
                       (ZPA_ENFORCE_BLOCKED w) (requests w ++ [url]) in
    match session_get url with
    | Failed e => (Raised e, w')
    | Response status_code text parsed =>
        let data :=
          match parsed with
          | Some d => d
          | None => JObj [("status_code", JInt status_code);
                          ("text", JStr text)]
          end in
        (Returned (JObj [("status_code", JInt status_code); ("data", data)]),
         w')
    end.

Definition enforcement_enabled : bool :=
  String.eqb (lower (os_getenv "ZPA_ENABLE_ENFORCE" "false")) "true".

Definition blocked_reason (status_name : json)
    (allow_statuses : list string) : string :=
  "JIRA status '" ++ py_str status_name ++ "' not in allowlist "
  ++ py_repr_list allow_statuses.

(** [zpa_enforce].  Its decorator [instrument] touches the [REQUESTS] and
    [LATENCY] metrics only and lets the result, or the exception, through. *)
Definition zpa_enforce (patch : list patch_op) (jira_issue_key : string)
    (allow_statuses : list string) : M decision :=
  inc_attempts ;;
  if negb enforcement_enabled then
    inc_blocked ;;
    ret (mk_decision "blocked"
           (Some "ZPA enforcement disabled (set ZPA_ENABLE_ENFORCE=true)")
           None None)
  else
    ji <- get_issue jira jira_issue_key ;;
    data <- py_get ji "data" (JObj []) ;;
    fields <- py_get data "fields" (JObj []) ;;
    st <- py_get fields "status" (JObj []) ;;
    status_name <- py_get st "name" (JStr "") ;;
    if negb (py_in status_name allow_statuses) then
      inc_blocked ;;
      ret (mk_decision "blocked"
             (Some (blocked_reason status_name allow_statuses)) None None)
    else
      inc_applied ;;
      ret (mk_decision "accepted" None (Some (List.length patch))
             (Some "Map patch ops to ZPA API calls in your tenant")).

End Enforce.

(** A formatting good enough for strings without quotes or escapes. *)
Definition simple_str (j : json) : string :=
  match j with
  | JStr s => s
  | JNull => "None"
  | JBool true => "True"
  | JBool false => "False"
  | _ => "?"
  end.

Definition simple_repr_list (l : list string) : string :=
  "[" ++ join ", " (map (fun s => ("'" ++ s ++ "'")%string) l) ++ "]".

#[local] Instance simple_format : PyFormat := {|
  py_str := simple_str;
  py_repr_list := simple_repr_list;
  py_str_JStr := fun s => eq_refl
|}.

(** ** Vocabulary of the statements *)

(** The URL that [get_issue] requests for an issue key. *)
Definition issue_url (jira : JiraConnector) (key : string) : string :=
  base jira ++ "/rest/api/3/issue/" ++ key.

(** The world after a call that went as far as the given counters say. *)
Definition bump (applied blocked : nat) (reqs : list string) (w : world)
    : world :=
  mk_world (S (ZPA_ENFORCE_ATTEMPTS w)) (applied + ZPA_ENFORCE_APPLIED w)
           (blocked + ZPA_ENFORCE_BLOCKED w) (requests w ++ reqs).

(** The flag as the operator sets it: off when the variable is unset or
    holds anything but a spelling of ["true"]. *)
Definition flag_off (getenv : string -> option string) : Prop :=
  getenv "ZPA_ENABLE_ENFORCE" = None
  \/ exists v, getenv "ZPA_ENABLE_ENFORCE" = Some v /\ lower v <> "true".

Definition flag_on (getenv : string -> option string) : Prop :=
  exists v, getenv "ZPA_ENABLE_ENFORCE" = Some v /\ lower v = "true".

(** A JSON body in which the chain [fields] / [status] / [name] stops at
    a missing key. *)
Definition no_status_name (data : json) : bool :=
  match data with
  | JObj d =>
      match lookup "fields" d with
      | None => true
      | Some (JObj f) =>
          match lookup "status" f with
          | None => true
          | Some (JObj st) =>
              match lookup "name" st with None => true | Some _ => false end
          | Some _ => false
          end
      | Some _ => false
      end
  | _ => false
  end.

(** A JSON body that is an issue whose status name is the string [s]. *)
Definition has_status_name (data : json) (s : string) : Prop :=
  exists d f st,
    data = JObj d /\ lookup "fields" d = Some (JObj f)
    /\ lookup "status" f = Some (JObj st)
    /\ lookup "name" st = Some (JStr s).

(** A JSON body in which the chain reaches a [name] key, whose value is
    [nm], a string or not. *)
Definition has_name (data nm : json) : Prop :=
  exists d f st,
    data = JObj d /\ lookup "fields" d = Some (JObj f)
    /\ lookup "status" f = Some (JObj st)
    /\ lookup "name" st = Some nm.

(** A JSON body in which the chain meets [bad], which is not a mapping,
    where it calls [.get]: the body itself, or the value stored under
    [fields], or the value stored under [status]. *)
Definition broken_chain (data bad : json) : Prop :=
  (py_type data <> dict_t /\ bad = data)
  \/ exists d,
       data = JObj d
       /\ ((lookup "fields" d = Some bad /\ py_type bad <> dict_t)
           \/ exists f,
                lookup "fields" d = Some (JObj f)
                /\ lookup "status" f = Some bad /\ py_type bad <> dict_t).

(** The exception that [bad.get] raises. *)
Definition no_get (bad : json) : exn :=
  AttributeError ("'" ++ type_name bad ++ "' object has no attribute 'get'").

(** A tree that is a NaN, or a mapping that stores such a tree under one of
    its keys: the places where the differ compares two floats with [!=]. *)
Fixpoint nan_at_key (j : json) : bool :=
  match j with
  | JNaN _ => true
  | JObj entries =>
      existsb (fun p : string * json => let (_, v) := p in nan_at_key v)
        entries
  | _ => false
  end.

Definition blocked_decision (why : string) : decision :=
  mk_decision "blocked" (Some why) None None.

Definition accepted_decision (n : nat) : decision :=
  mk_decision "accepted" None (Some n)
    (Some "Map patch ops to ZPA API calls in your tenant").

(** ** Sample inputs *)

Definition jira_error_body : json :=
  JObj [("errorMessages", JArr [JStr "Issue does not exist"]);
        ("errors", JObj [])].

Definition sample_tree : json :=
  JObj [("name", JStr "segment");
        ("ports", JArr [JInt 443; JFloat 3 (-1); JBool true]);
        ("meta", JObj [("owner", JNull); ("tags", JArr [])])].

Definition w0 : world := mk_world 0 0 0 [].
Definition env_on (name : string) : option string :=
  if String.eqb name "ZPA_ENABLE_ENFORCE" then Some "true" else None.
Definition env_unset (name : string) : option string := None.
Definition jira0 : JiraConnector := mk_jira "https://jira.example" "e" "t".
Definition issue_with (s : string) : json :=
  JObj [("key", JStr "TICK-1");
        ("fields", JObj [("status", JObj [("name", JStr s)])])].
(** Bodies that carry no status name: [{"fields": null}], and an issue
    whose status has the name [null]. *)
Definition body_fields_null : json := JObj [("fields", JNull)].
Definition body_name_null : json :=
  JObj [("key", JStr "TICK-1");
        ("fields", JObj [("status", JObj [("name", JNull)])])].
Definition net_status (s : string) (url : string) : http_reply :=
  Response 200 "" (Some (issue_with s)).
Definition three_ops : list patch_op :=
  [mk_op add "/a" (Some (JInt 1)); mk_op remove "/b" None;
   mk_op replace "/c" (Some JNull)].

(** A NaN inside a sequence, and a NaN stored under a key. *)
Definition nan_in_a_sequence : json :=
  JObj [("weights", JArr [JNaN 0; JFloat 1 (-1)]); ("name", JStr "segment")].
Definition nan_under_a_key : json := JObj [("a", JNaN 0)].

Definition new_ab : json := JObj [("a", JInt 1); ("b", JInt 2)].
Definition new_ba : json := JObj [("b", JInt 2); ("a", JInt 1)].


(** ** Vocabulary of the further properties of the differ *)

(** The decoding that undoes [escape]: [~0] is [~] and [~1] is [/]. *)
Fixpoint unescape (s : string) : string :=
  match s with
  | EmptyString => EmptyString
  | String c rest =>
      match rest with
      | String d rest' =>
          if Ascii.eqb c "~" && Ascii.eqb d "0" then String "~" (unescape rest')
          else if Ascii.eqb c "~" && Ascii.eqb d "1"
               then String "/" (unescape rest')
               else String c (unescape rest)
      | EmptyString => String c EmptyString
      end
  end.

(** [t] is the tree [whole] or the value of a key somewhere inside it. *)
Inductive value_in (t : json) : json -> Prop :=
| value_here : value_in t t
| value_under k v entries :
    In (k, v) entries -> value_in t v -> value_in t (JObj entries).

(** ** merge.py

    An indicator dict maps a kind of indicator ([ipv4], [domain], ..) to a
    list of values.  [merged] is a [defaultdict(set)]: its keys are kept in
    the order in which they are first touched, and each set is listed here
    without repetition; the order in which Python enumerates a set is an
    interface ([SetEnum]), as for the differ. *)

Definition ioc_dict : Type := list (string * list string).

Fixpoint assoc {A : Type} (k : string) (d : list (string * A)) : option A :=
  match d with
  | [] => None
  | (k', v) :: d' => if String.eqb k k' then Some v else assoc k d'
  end.

Class SetEnum : Type := {
  set_enum : list string -> list string;
  set_enum_perm : forall s, Permutation (set_enum s) s
}.

#[local] Instance reversed_enum : SetEnum := {|
  set_enum := fun s => rev s;
  set_enum_perm := fun s => Permutation_sym (Permutation_rev s)
|}.

#[local] Instance insertion_enum : SetEnum := {|
  set_enum := fun s => s;
  set_enum_perm := fun s => Permutation_refl s
|}.

(** [s.add(v)]. *)
Definition set_add (v : string) (s : list string) : list string :=
  if mem v s then s else s ++ [v].

(** [set(vals)]. *)
Definition set_of (vals : list string) : list string :=
  fold_left (fun s v => set_add v s) vals [].

(** [merged[k].add(v)]: a key that is not there yet is created, with the
    empty set, by the lookup itself. *)
Fixpoint merged_add (k v : string) (merged : ioc_dict) : ioc_dict :=
  match merged with
  | [] => [(k, [v])]
  | (k', s) :: rest =>
      if String.eqb k k' then (k', set_add v s) :: rest
      else (k', s) :: merged_add k v rest
  end.

(** [sorted(..)] on strings: the order is that of the code points, which is
    the order of the UTF-8 bytes; equal strings are the same string, so any
    sorting algorithm gives the same list. *)
Fixpoint insert_sorted (x : string) (l : list string) : list string :=
  match l with
  | [] => [x]
  | y :: l' => if String.leb x y then x :: l else y :: insert_sorted x l'
  end.

Fixpoint py_sorted (l : list string) : list string :=
  match l with
  | [] => []
  | x :: l' => insert_sorted x (py_sorted l')
  end.

(** [v[:n]] for a Python integer [n]. *)
Definition slice_to {A : Type} (n : Z) (v : list A) : list A :=
  if (0 <=? n)%Z then firstn (Z.to_nat n) v
  else firstn (List.length v - Z.to_nat (- n)) v.

Section Merge.
Context {SE : SetEnum}.

Definition merge_values (k : string) (vals : list string)
    (merged : ioc_dict) : ioc_dict :=
  fold_left (fun m v => merged_add k v m) vals merged.

Definition merge_result (r : option ioc_dict) (merged : ioc_dict)
    : ioc_dict :=
  fold_left (fun m (kv : string * list string) =>
               let (k, vals) := kv in merge_values k vals m)
            (match r with Some d => d | None => [] end) merged.

(** [merge_iocs(results)]; a result may be [None] or empty ([r or {}]). *)
Definition merge_iocs (results : list (option ioc_dict)) : ioc_dict :=
  let merged := fold_left (fun m r => merge_result r m) results [] in
  map (fun kv : string * list string =>
         let (k, v) := kv in (k, py_sorted (set_enum v))) merged.

End Merge.


(** The strict order of strings. *)
Definition str_lt (a b : string) : Prop := String.ltb a b = true.

Definition scan_a : option ioc_dict :=
  Some [("ipv4", ["10.0.0.2"; "10.0.0.1"]); ("domain", ["b.example"])].
Definition scan_b : option ioc_dict :=
  Some [("domain", ["a.example"; "b.example"]); ("ipv4", ["10.0.0.1"])].

(** [v] is one of the values listed under the key [k]. *)
Definition listed (m : ioc_dict) (k v : string) : Prop :=
  exists s, In (k, s) m /\ In v s.

(** The keys are distinct and every set is listed without repetition and
    is not empty. *)
Definition well_kept (m : ioc_dict) : Prop :=
  NoDup (map fst m) /\ forall k s, In (k, s) m -> NoDup s /\ s <> [].

(** ** markdown.py: [ioc_table] *)

Definition newline : string := String (ascii_of_nat 10) EmptyString.

Definition ioc_row (k v : string) : string :=
  "| " ++ k ++ " | " ++ v ++ " |".

Section Markdown.
Context {SE : SetEnum}.

(** The list [rows] of [ioc_table] when the dict is not empty. *)
Definition ioc_rows (iocs : ioc_dict) : list string :=
  fold_left
    (fun rows (kv : string * list string) =>
       let (k, vals) := kv in
       fold_left (fun rows v => rows ++ [ioc_row k v])
                 (slice_to 200 (py_sorted (set_enum (set_of vals)))) rows)
    iocs ["| Type | Value |"; "|---|---|"].

Definition ioc_table (iocs : ioc_dict) : string :=
  if is_nil iocs then "_No indicators extracted._"
  else join newline (ioc_rows iocs).

End Markdown.

(** ** connectors/zpa.py and the endpoint [zpa_diff] *)

(** What leaves [zpa_diff] by an exception: a failure of the request, or
    the failure of [r.json()] on a body announced as JSON. *)
Inductive py_error : Type :=
| HttpError (e : exn)
| JSONDecodeError (doc : string).

Record zpa_request : Type := mk_request {
  req_url : string;
  req_headers : list (string * string);
  req_params : list (string * json)
}.

(** The answer to [await session.get(url, headers=.., params=..)]: the
    request raises, or there is a response with its status, its
    [content-type] header if any, its text and the outcome of [r.json()]. *)
Inductive zpa_reply : Type :=
| ZpaFailed (e : exn)
| ZpaResponse (status_code : Z) (content_type : option string)
    (text : string) (parsed : option json).

Record ZPAConnector : Type := mk_zpa {
  zpa_base : string;
  client_id : string;
  client_secret : string
}.

Record diff_world : Type := mk_diff_world {
  ZPA_DIFFS : nat;
  zpa_requests : list zpa_request
}.

Inductive outcome (A : Type) : Type :=
| Done (a : A)
| Thrown (e : py_error).
Arguments Done {A} a.
Arguments Thrown {A} e.

(** [s.lstrip('/')]. *)
Fixpoint lstrip_slash (s : string) : string :=
  match s with
  | EmptyString => EmptyString
  | String c rest => if Ascii.eqb c "/" then lstrip_slash rest else s
  end.

(** The truth value that [x or y] tests. *)
Definition py_truthy (j : json) : bool :=
  match j with
  | JNull => false
  | JBool b => b
  | JInt z => negb (z =? 0)%Z
  | JFloat m _ => negb (m =? 0)%Z
  | JStr s => negb (String.eqb s "")
  | JArr items => negb (is_nil items)
  | JObj entries => negb (is_nil entries)
  | JNaN _ | JInf _ => true
  end.

(** The response of [zpa_diff]. *)
Record diff_response : Type := mk_diff_response {
  patch : list patch_op;
  summary : list string;
  changes : nat
}.

Section ZpaDiff.
Context {KO : KeySetOrder}.
Variable getenv : string -> option string.
Variable zpa_session_get : zpa_request -> zpa_reply.
Variable zpa : ZPAConnector.

(** [ZPAConnector.get(path, params)]; the result dict
    [{"status_code": .., "data": ..}] is a JSON object whose [data] is the
    parsed body, or the text of the body as a string. *)
Definition zpa_get (self : ZPAConnector) (path : string)
    (params : list (string * json))
    : diff_world -> outcome json * diff_world :=
  fun w =>
    let headers :=
      if negb (String.eqb (client_secret self) "")
      then [("Authorization", ("Bearer " ++ client_secret self)%string)]
      else [] in
    let url := (zpa_base self ++ "/" ++ lstrip_slash path)%string in
    let req := mk_request url headers params in
    let w' := mk_diff_world (ZPA_DIFFS w) (zpa_requests w ++ [req]) in
    match zpa_session_get req with
    | ZpaFailed e => (Thrown (HttpError e), w')
    | ZpaResponse status_code content_type text parsed =>
        let ct := match content_type with Some c => c | None => "" end in
        if String.prefix "application/json" ct then
          match parsed with
          | Some d =>
              (Done (JObj [("status_code", JInt status_code); ("data", d)]),
               w')
          | None => (Thrown (JSONDecodeError text), w')
          end
        else
          (Done (JObj [("status_code", JInt status_code);
                       ("data", JStr text)]), w')
    end.

Definition get_current_policies (self : ZPAConnector)
    : diff_world -> outcome json * diff_world :=
  zpa_get self
    (match getenv "ZPA_POLICIES_PATH" with
     | Some p => p
     | None => "mgmtconfig/v2/admin/applications"
     end) [].

(** [zpa_diff(desired, current, fetch_current)]; [current] is a dict or
    [None]. *)
Definition zpa_diff (desired : list (string * json))
    (current : option (list (string * json))) (fetch_current : bool)
    : diff_world -> outcome diff_response * diff_world :=
  fun w =>
    let fetched :=
      match current with
      | None =>
          if fetch_current then
            match get_current_policies zpa w with
            | (Done cur, w') =>
                (Done (match cur with
                       | JObj entries =>
                           match lookup "data" entries with
                           | Some d => d
                           | None => cur
                           end
                       | _ => cur
                       end), w')
            | (Thrown e, w') => (Thrown e, w')
            end
          else (Done JNull, w)
      | Some c => (Done (JObj c), w)
      end in
    match fetched with
    | (Thrown e, w') => (Thrown e, w')
    | (Done current, w') =>
        let current := if py_truthy current then current else JObj [] in
        let patch := make_patch current (JObj desired) in
        let summary := summarize_patch patch in
        (Done (mk_diff_response patch summary (List.length patch)),
         mk_diff_world (S (ZPA_DIFFS w')) (zpa_requests w'))
    end.

End ZpaDiff.

Definition zpa0 : ZPAConnector := mk_zpa "https://zpa.example" "id" "s3cret".
Definition dw0 : diff_world := mk_diff_world 0 [].
Definition html_reply (r : zpa_request) : zpa_reply :=
  ZpaResponse 502 (Some "text/html") "<html>Bad Gateway</html>" None.

(** The one request that [get_current_policies] sends. *)
Definition policies_request (getenv : string -> option string)
    (zpa : ZPAConnector) : zpa_request :=
  mk_request
    (zpa_base zpa ++ "/"
     ++ lstrip_slash (match getenv "ZPA_POLICIES_PATH" with
                      | Some p => p
                      | None => "mgmtconfig/v2/admin/applications"
                      end))
    (if negb (String.eqb (client_secret zpa) "")
     then [("Authorization", ("Bearer " ++ client_secret zpa)%string)]
     else [])
    [].

(** The value that [zpa_diff] takes for [current] out of a response. *)
Definition answer_data (content_type : option string) (text : string)
    (parsed : option json) : option json :=
  if String.prefix "application/json"
       (match content_type with Some c => c | None => "" end)
  then parsed
  else Some (JStr text).

(** ** utils/jira_map.py

    The field map is the dict that [yaml.safe_load] builds from the file,
    with string keys, as a tree.  The only updates in place, the two
    [out[..].update(..)], are given the empty dict or the very dict they
    update, so no dict shared with [DEFAULT] is ever changed and dicts can be
    values here. *)

Definition DEFAULT : list (string * json) :=
  [("project_key", JStr "SEC");
   ("default_issue_type", JStr "Task");
   ("default_labels", JArr [JStr "BLUE-SWARM"; JStr "TRIAGE"]);
   ("components", JArr [JStr "Security"]);
   ("priority_map",
    JObj [("critical", JStr "Highest"); ("high", JStr "High");
          ("medium", JStr "Medium"); ("low", JStr "Low")]);
   ("custom_fields", JObj [])].

(** [d[k] = v]: an existing key keeps its place. *)
Fixpoint dict_set (k : string) (v : json) (d : list (string * json))
    : list (string * json) :=
  match d with
  | [] => [(k, v)]
  | (k', v') :: d' =>
      if String.eqb k k' then (k', v) :: d' else (k', v') :: dict_set k v d'
  end.

(** [d.update(u)]. *)
Definition dict_update (d u : list (string * json)) : list (string * json) :=
  fold_left (fun d (kv : string * json) => dict_set (fst kv) (snd kv) d) u d.

Definition is_null (j : json) : bool :=
  match j with JNull => true | _ => false end.

(** [if key in data: out[key].update(data[key] or {})].  [out] has the key,
    which [DEFAULT] has and no update removes; and a [data[key]] that is
    true is [out[key]] itself, a dict once the method was found. *)
Definition update_nested (key : string) (data out : list (string * json))
    : result (list (string * json)) :=
  match lookup key data with
  | None => Returned out
  | Some dv =>
      match lookup key out with
      | Some (JObj target) =>
          match (if py_truthy dv then dv else JObj []) with
          | JObj u => Returned (dict_set key (JObj (dict_update target u)) out)
          | _ => Returned out
          end
      | Some other =>
          Raised (AttributeError
                    ("'" ++ type_name other
                     ++ "' object has no attribute 'update'"))
      | None => Returned out
      end
  end.

(** [load_map(path)], on what [path] holds: [None] when the file does not
    exist, else the value loaded from it. *)
Definition load_map (file : option json) : result (list (string * json)) :=
  match file with
  | None => Returned DEFAULT
  | Some loaded =>
      match (if py_truthy loaded then loaded else JObj []) with
      | JObj data =>
          let out :=
            dict_update DEFAULT
              (filter (fun kv : string * json => negb (is_null (snd kv)))
                      data) in
          match update_nested "priority_map" data out with
          | Returned out1 => update_nested "custom_fields" data out1
          | Raised e => Raised e
          end
      | other =>
          Raised (AttributeError
                    ("'" ++ type_name other
                     ++ "' object has no attribute 'items'"))
      end
  end.

Section MapPriority.
(** [str.lower], over all of Unicode, is the interpreter's. *)
Variable py_lower : string -> string.

(** [map_priority(sev, fmap)]; Python's [None] is [JNull]. *)
Definition map_priority (sev : string) (fmap : list (string * json))
    : result json :=
  if String.eqb sev "" then Returned JNull
  else
    match (match lookup "priority_map" fmap with
           | Some pm => pm
           | None => JObj []
           end) with
    | JObj pm =>
        Returned (match lookup (py_lower sev) pm with
                  | Some p => p
                  | None => JNull
                  end)
    | other =>
        Raised (AttributeError
                  ("'" ++ type_name other ++ "' object has no attribute 'get'"))
    end.
End MapPriority.

(** A value of the file that [update_nested] accepts under its key. *)
Definition nested_ok (key : string) (data : list (string * json)) : bool :=
  match lookup key data with
  | None | Some JNull | Some (JObj _) => true
  | Some _ => false
  end.

Definition fieldmap_file : json :=
  JObj [("project_key", JStr "NET");
        ("components", JNull);
        ("priority_map", JObj [("critical", JStr "P1")])].

(** * Properties *)

(** ** The scenarios of the differ *)

Example scenario_add :
  @make_patch insertion_order (JObj []) (JObj [("a", JInt 1)])
  = [mk_op add "/a" (Some (JInt 1))].
Proof. reflexivity. Qed.

Example scenario_remove :
  @make_patch insertion_order
    (JObj [("a", JInt 1); ("b", JInt 2)]) (JObj [("a", JInt 1)])
  = [mk_op remove "/b" None].
Proof. reflexivity. Qed.

Example scenario_nested_replace :
  @make_patch insertion_order
    (JObj [("a", JObj [("x", JInt 1)])]) (JObj [("a", JObj [("x", JInt 2)])])
  = [mk_op replace "/a/x" (Some (JInt 2))].
Proof. reflexivity. Qed.

Example scenario_summary :
  summarize_patch
    (@make_patch insertion_order
       (JObj [("a", JObj [("x", JInt 1)])])
       (JObj [("a", JObj [("x", JInt 2)])]))
  = ["REPLACE /a/x"].
Proof. reflexivity. Qed.

(** The type test separates [1] from [True] and from [1.0] where they are
    values of a key; inside a sequence [==] identifies them. *)
Example one_and_true_under_a_key :
  @make_patch insertion_order (JObj [("a", JInt 1)]) (JObj [("a", JBool true)])
  = [mk_op replace "/a" (Some (JBool true))].
Proof. reflexivity. Qed.

Example one_and_true_in_a_sequence :
  @make_patch insertion_order
    (JObj [("a", JArr [JInt 1; JInt 2])])
    (JObj [("a", JArr [JBool true; JFloat 1 1])])
  = [].
Proof. reflexivity. Qed.

(** ** Facts about lookups and [==] *)

Lemma py_eqb_JArr xs ys : py_eqb (JArr xs) (JArr ys) = items_eqb xs ys.
Proof.
  reflexivity.
Qed.

Lemma py_eqb_JObj xs ys :
  py_eqb (JObj xs) (JObj ys)
  = Nat.eqb (List.length xs) (List.length ys) && entries_eqb ys xs.
Proof.
  reflexivity.
Qed.

Lemma mem_In k l : mem k l = true <-> In k l.
Proof.
  unfold mem. rewrite existsb_exists. split.
  - intros (x & Hx & E). apply String.eqb_eq in E. subst. exact Hx.
  - intros H. exists k. split; [exact H | apply String.eqb_refl].
Qed.

Lemma mem_false k l : mem k l = false <-> ~ In k l.
Proof.
  rewrite <- mem_In. destruct (mem k l); split; intros; congruence.
Qed.

Lemma nodupb_NoDup l : nodupb l = true <-> NoDup l.
Proof.
  induction l as [| k l IH]; simpl.
  - split; [constructor | reflexivity].
  - rewrite andb_true_iff, negb_true_iff, mem_false, IH. split.
    + intros [H1 H2]. constructor; assumption.
    + intros H. inversion H; subst. split; assumption.
Qed.

Lemma lookup_None k d : lookup k d = None <-> ~ In k (keys d).
Proof.
  induction d as [| [k' v] d IH]; simpl.
  - tauto.
  - destruct (String.eqb k k') eqn:E.
    + apply String.eqb_eq in E. subst. split; [discriminate | tauto].
    + apply String.eqb_neq in E. rewrite IH. split.
      * intros H [H1 | H1]; [congruence | tauto].
      * tauto.
Qed.

Lemma lookup_In k v d : lookup k d = Some v -> In (k, v) d.
Proof.
  induction d as [| [k' v'] d IH]; simpl; [discriminate |].
  destruct (String.eqb k k') eqn:E.
  - apply String.eqb_eq in E. intros [= ->]. subst. left. reflexivity.
  - intros H. right. auto.
Qed.

Lemma In_lookup k v d : NoDup (keys d) -> In (k, v) d -> lookup k d = Some v.
Proof.
  induction d as [| [k' v'] d IH]; simpl; [tauto |].
  intros Hnd [H | H].
  - inversion H; subst. rewrite String.eqb_refl. reflexivity.
  - inversion Hnd as [| ? ? Hnotin Hnd']; subst.
    destruct (String.eqb k k') eqn:E.
    + apply String.eqb_eq in E. subst. exfalso. apply Hnotin.
      unfold keys. apply (in_map fst) in H. exact H.
    + auto.
Qed.

Lemma wf_JObj entries :
  wf_json (JObj entries) = true ->
  NoDup (keys entries) /\ Forall (fun p => wf_json (snd p) = true) entries.
Proof.
  simpl. rewrite andb_true_iff, nodupb_NoDup, forallb_forall.
  intros [Hnd Hall]. split; [exact Hnd |].
  apply Forall_forall. intros [k v] Hin. apply (Hall _ Hin).
Qed.

Lemma wf_JArr items :
  wf_json (JArr items) = true -> Forall (fun x => wf_json x = true) items.
Proof.
  simpl. rewrite forallb_forall. intros H. apply Forall_forall. exact H.
Qed.

Lemma items_eqb_cons x xs y ys :
  items_eqb (x :: xs) (y :: ys) = item_eqb x y && items_eqb xs ys.
Proof. reflexivity. Qed.

Lemma entries_eqb_cons ys k v xs :
  entries_eqb ys ((k, v) :: xs)
  = match lookup k ys with
    | Some w => item_eqb v w && entries_eqb ys xs
    | None => false
    end.
Proof. reflexivity. Qed.

Lemma item_eqb_of_eq x y : py_eqb x y = true -> item_eqb x y = true.
Proof.
  unfold item_eqb. intros ->. apply orb_true_r.
Qed.

(** As a member of a list or as a value of a dict, a well-formed tree is
    equal to itself; a NaN is, because it is the same object. *)
Lemma item_eqb_refl j : wf_json j = true -> item_eqb j j = true.
Proof.
  induction j as [ | b | z | m e | s | items IH | entries IH | nobj | ineg]
    using json_nested_ind; intros Hwf; try reflexivity.
  - destruct b; reflexivity.
  - unfold item_eqb. simpl. apply Z.eqb_refl.
  - unfold item_eqb. simpl. apply Z.eqb_refl.
  - unfold item_eqb. simpl. apply String.eqb_refl.
  - change (items_eqb items items = true). apply wf_JArr in Hwf.
    induction items as [| x items IHl]; [reflexivity |].
    inversion IH; subst. inversion Hwf; subst.
    rewrite items_eqb_cons, andb_true_iff. split; auto.
  - change (Nat.eqb (List.length entries) (List.length entries)
            && entries_eqb entries entries = true).
    rewrite Nat.eqb_refl. cbn [andb].
    apply wf_JObj in Hwf. destruct Hwf as [Hnd Hwf].
    assert (Hsub : forall xs, incl xs entries -> entries_eqb entries xs = true).
    { induction xs as [| [k v] xs IHxs]; intros Hincl; [reflexivity |].
      rewrite entries_eqb_cons.
      assert (Hin : In (k, v) entries) by (apply Hincl; left; reflexivity).
      rewrite (In_lookup _ _ _ Hnd Hin).
      rewrite Forall_forall in IH, Hwf.
      pose proof (IH _ Hin (Hwf _ Hin)) as Hv. simpl in Hv. rewrite Hv.
      cbn [andb].
      apply IHxs. intros p Hp. apply Hincl. right. exact Hp. }
    apply Hsub. apply incl_refl.
  - unfold item_eqb. simpl. rewrite Nat.eqb_refl. reflexivity.
  - destruct ineg; reflexivity.
Qed.

(** Python's [==] holds between a well-formed tree and itself, unless the
    tree is a NaN. *)
Lemma py_eqb_refl j :
  wf_json j = true -> identical_nan j j = false -> py_eqb j j = true.
Proof.
  intros Hwf Hn. pose proof (item_eqb_refl j Hwf) as E.
  unfold item_eqb in E. rewrite Hn in E. exact E.
Qed.

Lemma nan_at_key_JObj entries :
  nan_at_key (JObj entries) = false ->
  Forall (fun p => nan_at_key (snd p) = false) entries.
Proof.
  intros H. apply Forall_forall. intros [k v] Hin. simpl.
  destruct (nan_at_key v) eqn:E; [| reflexivity].
  rewrite <- H. symmetry. simpl. apply existsb_exists.
  exists (k, v). split; [exact Hin | exact E].
Qed.

Lemma flat_map_nil {A B} (f : A -> list B) l :
  flat_map f l = [] -> forall x, In x l -> f x = [].
Proof.
  induction l as [| a l IH]; simpl; intros H x Hin; [contradiction |].
  apply app_eq_nil in H. destruct H as [Ha Hl].
  destruct Hin as [<- | Hin]; [exact Ha | apply IH; assumption].
Qed.

Section DifferFacts.
Context {KO : KeySetOrder}.

Lemma remove_ops_app parent ks patch :
  remove_ops parent ks patch = patch ++ removals parent ks.
Proof.
  unfold remove_ops, removals. revert patch.
  induction ks as [| k ks IH]; intros patch; simpl.
  - rewrite app_nil_r. reflexivity.
  - rewrite IH, <- app_assoc. reflexivity.
Qed.

Lemma _diff_JObj o n parent patch :
  _diff (JObj o) (JObj n) parent patch
  = each_key o parent n
      (remove_ops parent (keys_minus (keys o) (keys n)) patch).
Proof. reflexivity. Qed.

Lemma _diff_type_mismatch old new parent patch :
  pytype_eqb (py_type old) (py_type new) = false ->
  _diff old new parent patch
  = patch ++ [mk_op replace
                (if is_nil parent then "/" else "/" ++ join "/" parent)
                (Some new)].
Proof.
  intros H. destruct new; simpl in *; rewrite H; reflexivity.
Qed.

Lemma _diff_leaf old new parent patch :
  pytype_eqb (py_type old) (py_type new) = true ->
  py_type new <> dict_t ->
  _diff old new parent patch
  = if py_eqb old new then patch
    else patch ++ [mk_op replace ("/" ++ join "/" parent) (Some new)].
Proof.
  intros H Hnd.
  destruct new; simpl in *; rewrite H; simpl;
    try (destruct (py_eqb old _); reflexivity).
  congruence.
Qed.

Lemma each_key_app o parent l :
  Forall (fun p => forall old parent patch,
              _diff old (snd p) parent patch
              = patch ++ _diff old (snd p) parent []) l ->
  forall patch,
    each_key o parent l patch = patch ++ flat_map (key_ops o parent) l.
Proof.
  induction 1 as [| [k v] l Hv _ IH]; intros patch; simpl.
  - rewrite app_nil_r. reflexivity.
  - rewrite IH. simpl in Hv.
    destruct (lookup k o) as [ov |].
    + rewrite Hv, <- app_assoc. reflexivity.
    + rewrite <- app_assoc. reflexivity.
Qed.

(** The patch handed to [_diff] is only ever extended. *)
Lemma _diff_app new :
  forall old parent patch,
    _diff old new parent patch = patch ++ _diff old new parent [].
Proof.
  induction new as [ | b | z | m e | s | items IH | nentries IH | nobj | ineg]
    using json_nested_ind; intros old parent patch.
  all: match goal with
       | |- _diff ?o ?n _ _ = _ =>
           destruct (pytype_eqb (py_type o) (py_type n)) eqn:Ety;
           [| rewrite !(_diff_type_mismatch _ _ _ _ Ety); reflexivity]
       end.
  all: try (rewrite !(_diff_leaf _ _ _ _ Ety) by discriminate;
            destruct (py_eqb old _);
            [rewrite app_nil_r; reflexivity | reflexivity]).
  destruct old as [ | | | | | | oentries | | ]; try discriminate Ety.
  rewrite !_diff_JObj, !(each_key_app _ _ _ IH), !remove_ops_app.
  rewrite app_assoc. reflexivity.
Qed.

(** Two mappings: the removals, then what each key of [new] contributes,
    in the enumeration order of [new]. *)
Lemma _diff_mappings o n parent patch :
  _diff (JObj o) (JObj n) parent patch
  = patch ++ removals parent (keys_minus (keys o) (keys n))
    ++ flat_map (key_ops o parent) n.
Proof.
  rewrite _diff_JObj, each_key_app, remove_ops_app, app_assoc.
  - reflexivity.
  - apply Forall_forall. intros p _. apply _diff_app.
Qed.

Lemma keys_minus_In k a b :
  In k (keys_minus a b) <-> In k a /\ ~ In k b.
Proof.
  split.
  - intros H. apply (Permutation_in _ (keys_minus_perm a b)) in H.
    apply filter_In in H. rewrite negb_true_iff, mem_false in H. exact H.
  - intros H. apply (Permutation_in _ (Permutation_sym (keys_minus_perm a b))).
    apply filter_In. rewrite negb_true_iff, mem_false. exact H.
Qed.

Lemma keys_minus_self a : keys_minus a a = [].
Proof.
  destruct (keys_minus a a) as [| k l] eqn:E; [reflexivity |].
  assert (H : In k (keys_minus a a)) by (rewrite E; left; reflexivity).
  apply keys_minus_In in H. tauto.
Qed.

Lemma _diff_same j :
  wf_json j = true -> nan_at_key j = false ->
  forall parent, _diff j j parent [] = [].
Proof.
  induction j as [ | b | z | m e | s | items IH | entries IH | nobj | ineg]
    using json_nested_ind; intros Hwf Hnan parent.
  all: try discriminate Hnan.
  all: try (rewrite _diff_leaf by (reflexivity || discriminate);
            rewrite (py_eqb_refl _ Hwf) by reflexivity; reflexivity).
  rewrite _diff_mappings, keys_minus_self. simpl.
  apply wf_JObj in Hwf. destruct Hwf as [Hnd Hwf].
  apply nan_at_key_JObj in Hnan.
  assert (Hsub : forall l, incl l entries ->
                           flat_map (key_ops entries parent) l = []).
  { induction l as [| [k v] l IHl]; intros Hincl; [reflexivity |].
    simpl.
    assert (Hin : In (k, v) entries) by (apply Hincl; left; reflexivity).
    rewrite (In_lookup _ _ _ Hnd Hin).
    rewrite Forall_forall in IH, Hwf, Hnan.
    pose proof (IH _ Hin (Hwf _ Hin) (Hnan _ Hin) (parent ++ [k])) as Hv.
    simpl in Hv. rewrite Hv. simpl.
    apply IHl. intros p Hp. apply Hincl. right. exact Hp. }
  apply Hsub. apply incl_refl.
Qed.

(** A NaN that is the tree, or is stored under a key, is replaced. *)
Lemma _diff_same_nan j :
  wf_json j = true ->
  forall parent, _diff j j parent [] = [] -> nan_at_key j = false.
Proof.
  induction j as [ | b | z | m e | s | items IH | entries IH | nobj | ineg]
    using json_nested_ind; intros Hwf parent H; try reflexivity.
  - rewrite _diff_mappings, keys_minus_self in H. simpl in H.
    apply wf_JObj in Hwf. destruct Hwf as [Hnd Hwf].
    simpl.
    match goal with |- ?e = false => destruct e eqn:E; [| reflexivity] end.
    apply existsb_exists in E. destruct E as ([k v] & Hin & Hv).
    pose proof (flat_map_nil _ _ H _ Hin) as Hk. simpl in Hk.
    rewrite (In_lookup _ _ _ Hnd Hin) in Hk.
    rewrite Forall_forall in IH, Hwf.
    pose proof (IH _ Hin (Hwf _ Hin) _ Hk) as Hv'. simpl in Hv'.
    congruence.
  - rewrite _diff_leaf in H by (reflexivity || discriminate).
    simpl in H. discriminate H.
Qed.
End DifferFacts.

Lemma items_eqb_Forall2 xs ys :
  items_eqb xs ys = true <-> Forall2 (fun x y => item_eqb x y = true) xs ys.
Proof.
  revert ys. induction xs as [| x xs IH]; intros [| y ys].
  - split; [constructor | reflexivity].
  - split; [discriminate | intros H; inversion H].
  - split; [discriminate | intros H; inversion H].
  - rewrite items_eqb_cons, andb_true_iff, IH. split.
    + intros [H1 H2]. constructor; assumption.
    + intros H. inversion H; subst. split; assumption.
Qed.

Section DifferClaims.
Context {KO : KeySetOrder}.

Lemma keys_minus_subset a b :
  (forall k, In k a -> In k b) -> keys_minus a b = [].
Proof.
  intros Hsub. destruct (keys_minus a b) as [| k l] eqn:E; [reflexivity |].
  assert (H : In k (keys_minus a b)) by (rewrite E; left; reflexivity).
  apply keys_minus_In in H. destruct H as [Ha Hb]. elim Hb. auto.
Qed.

(** C5, as amended.  The diff of a tree with unique keys against itself is
    empty exactly when no NaN is the tree itself or is stored under a key of
    a mapping that the differ descends into.  A NaN inside a sequence is no
    obstacle: the sequence is compared as a whole and is equal to itself. *)
Theorem diff_same_tree_is_empty (X : json) :
  wf_json X = true -> (make_patch X X = [] <-> nan_at_key X = false).
Proof.
  intros Hwf. unfold make_patch. split.
  - apply _diff_same_nan. exact Hwf.
  - intros Hnan. apply _diff_same; assumption.
Qed.

(** C6, as amended.  Where both sides are sequences, at any depth (any
    [parent]) and after any operations already emitted ([patch]), the two
    are compared as wholes by [!=], which goes through them element by
    element with [x is y or x == y].  If they are not equal in that sense,
    and in particular if their lengths differ, exactly one operation is
    appended, a [replace] of the whole desired sequence at the path of the
    sequence; if they are, nothing is appended.  So every operation that a
    pair of sequences gives rise to is that one [replace], no operation
    addresses an element; and two sequences stored under the same key [k]
    of two mappings give what the two sequences give at the path extended
    by [k]. *)
Theorem sequences_are_atomic (a b : list json) (parent : list string)
    (patch : list patch_op) (k : string) :
  (~ Forall2 (fun x y => item_eqb x y = true) a b ->
   _diff (JArr a) (JArr b) parent patch
   = patch ++ [mk_op replace ("/" ++ join "/" parent) (Some (JArr b))])
  /\ (Forall2 (fun x y => item_eqb x y = true) a b ->
      _diff (JArr a) (JArr b) parent patch = patch)
  /\ (List.length a <> List.length b ->
      _diff (JArr a) (JArr b) parent patch
      = patch ++ [mk_op replace ("/" ++ join "/" parent) (Some (JArr b))])
  /\ (forall o, In o (_diff (JArr a) (JArr b) parent []) ->
      o = mk_op replace ("/" ++ join "/" parent) (Some (JArr b)))
  /\ _diff (JObj [(k, JArr a)]) (JObj [(k, JArr b)]) parent patch
     = _diff (JArr a) (JArr b) (parent ++ [k]) patch.
Proof.
  assert (Hshape : forall p,
    _diff (JArr a) (JArr b) parent p
    = if items_eqb a b then p
      else p ++ [mk_op replace ("/" ++ join "/" parent) (Some (JArr b))]).
  { intros p. rewrite _diff_leaf by (reflexivity || discriminate).
    rewrite py_eqb_JArr. reflexivity. }
  assert (Hne : ~ Forall2 (fun x y => item_eqb x y = true) a b ->
    _diff (JArr a) (JArr b) parent patch
    = patch ++ [mk_op replace ("/" ++ join "/" parent) (Some (JArr b))]).
  { intros Hne. rewrite Hshape.
    destruct (items_eqb a b) eqn:E; [| reflexivity].
    apply items_eqb_Forall2 in E. contradiction. }
  split; [exact Hne | split; [| split; [| split]]].
  - intros Heq. rewrite Hshape.
    apply items_eqb_Forall2 in Heq. rewrite Heq. reflexivity.
  - intros Hlen. apply Hne. intros Heq. apply Hlen.
    apply (Forall2_length Heq).
  - intros o. rewrite Hshape. destruct (items_eqb a b); simpl.
    + intros [].
    + intros [H | []]. symmetry. exact H.
  - rewrite _diff_mappings.
    rewrite keys_minus_subset by (intros k0 H; exact H).
    cbn [removals map flat_map key_ops lookup]. rewrite String.eqb_refl.
    rewrite app_nil_r. cbn [app]. symmetry. apply _diff_app.
Qed.

(** C7 fails on the code.  A key is escaped only where it is the last
    segment of an [add] or [remove]; the segments accumulated in [parent]
    while descending, and so every path of a [replace], are left as they
    are.  The mapping with the single key [a/b] and the mapping with key
    [a] holding key [b] both yield the path [/a/b]. *)
Theorem nested_segments_are_not_escaped :
  make_patch (JObj [("a/b", JInt 1)]) (JObj [("a/b", JInt 2)])
  = [mk_op replace "/a/b" (Some (JInt 2))]
  /\ make_patch (JObj [("a", JObj [("b", JInt 1)])])
                (JObj [("a", JObj [("b", JInt 2)])])
     = [mk_op replace "/a/b" (Some (JInt 2))]
  /\ make_patch (JObj [("a/b", JObj [])])
                (JObj [("a/b", JObj [("c~d", JInt 1)])])
     = [mk_op add "/a/b/c~0d" (Some (JInt 1))]
  /\ _path [] "a/b" = "/a~1b".
Proof.
  unfold make_patch.
  repeat split;
    repeat (cbn; try rewrite keys_minus_subset
                   by (intros k H; simpl in *; tauto));
    reflexivity.
Qed.

(** C8.  Where both sides are mappings, the patch holds a [remove] at
    [_path(parent, k)] for every key [k] of the current mapping alone, an
    [add] at [_path(parent, k)] with the desired value for every key of
    the desired mapping alone, and, for every key of both, all that the
    differ emits for the two values under the path extended by the key;
    it holds nothing else.  The diff of the empty mapping and [{"a": 1}] is
    the single [add] at [/a] with value [1]. *)
Theorem mapping_diff (o n : list (string * json)) (parent : list string) :
  (forall k, In k (keys o) -> ~ In k (keys n) ->
     In (mk_op remove (_path parent k) None)
        (_diff (JObj o) (JObj n) parent []))
  /\ (forall k v, In (k, v) n -> ~ In k (keys o) ->
        In (mk_op add (_path parent k) (Some v))
           (_diff (JObj o) (JObj n) parent []))
  /\ (forall k ov nv, lookup k o = Some ov -> In (k, nv) n ->
        incl (_diff ov nv (parent ++ [k]) [])
             (_diff (JObj o) (JObj n) parent []))
  /\ (forall x, In x (_diff (JObj o) (JObj n) parent []) ->
        (exists k, In k (keys o) /\ ~ In k (keys n)
                   /\ x = mk_op remove (_path parent k) None)
        \/ (exists k v, In (k, v) n /\ ~ In k (keys o)
                        /\ x = mk_op add (_path parent k) (Some v))
        \/ (exists k ov nv, lookup k o = Some ov /\ In (k, nv) n
                            /\ In x (_diff ov nv (parent ++ [k]) [])))
  /\ make_patch (JObj []) (JObj [("a", JInt 1)])
     = [mk_op add "/a" (Some (JInt 1))].
Proof.
  rewrite _diff_mappings. simpl app.
  split; [| split; [| split; [| split]]].
  - intros k Ho Hn. apply in_or_app. left. unfold removals.
    apply (in_map (fun k => mk_op remove (_path parent k) None)).
    apply keys_minus_In. split; assumption.
  - intros k v Hin Ho. apply in_or_app. right.
    apply in_flat_map. exists (k, v). split; [exact Hin |].
    simpl. apply lookup_None in Ho. rewrite Ho. left. reflexivity.
  - intros k ov nv Ho Hin x Hx. apply in_or_app. right.
    apply in_flat_map. exists (k, nv). split; [exact Hin |].
    simpl. rewrite Ho. exact Hx.
  - intros x Hx. apply in_app_or in Hx. destruct Hx as [Hx | Hx].
    + left. unfold removals in Hx. apply in_map_iff in Hx.
      destruct Hx as (k & <- & Hk). apply keys_minus_In in Hk.
      exists k. tauto.
    + right. apply in_flat_map in Hx. destruct Hx as ([k v] & Hin & Hx).
      simpl in Hx. destruct (lookup k o) as [ov |] eqn:Eo.
      * right. exists k, ov, v. tauto.
      * left. destruct Hx as [<- | []]. exists k, v.
        apply lookup_None in Eo. tauto.
  - unfold make_patch.
    rewrite _diff_mappings, keys_minus_subset by (intros k []).
    reflexivity.
Qed.
End DifferClaims.

Lemma diff_same_tree_is_empty_witness :
  wf_json nan_in_a_sequence = true
  /\ nan_at_key nan_in_a_sequence = false
  /\ make_patch nan_in_a_sequence nan_in_a_sequence = [].
Proof.
  split; [reflexivity |]. split; [reflexivity |].
  apply (diff_same_tree_is_empty (KO := insertion_order) nan_in_a_sequence
           eq_refl).
  reflexivity.
Defined.

(** C5 as stated fails: a NaN under a key is not equal to itself, and the
    diff of the tree against itself replaces it. *)
Lemma nan_under_a_key_is_replaced :
  wf_json nan_under_a_key = true
  /\ @make_patch insertion_order nan_under_a_key nan_under_a_key
     = [mk_op replace "/a" (Some (JNaN 0))].
Proof.
  split; reflexivity.
Qed.

Lemma sequences_are_atomic_witness :
  ~ Forall2 (fun x y => item_eqb x y = true) [JInt 1; JInt 2] [JInt 1; JInt 3]
  /\ make_patch (JObj [("ports", JArr [JInt 1; JInt 2])])
                (JObj [("ports", JArr [JInt 1; JInt 3])])
     = [mk_op replace "/ports" (Some (JArr [JInt 1; JInt 3]))]
  /\ Forall2 (fun x y => item_eqb x y = true) [JInt 1] [JBool true]
  /\ _diff (JArr [JInt 1]) (JArr [JBool true]) ["ports"] [] = []
  /\ List.length [JInt 1] <> List.length [JInt 1; JInt 1]
  /\ _diff (JArr [JInt 1]) (JArr [JInt 1; JInt 1]) ["ports"] []
     = [mk_op replace "/ports" (Some (JArr [JInt 1; JInt 1]))].
Proof.
  assert (Hne : ~ Forall2 (fun x y => item_eqb x y = true)
                  [JInt 1; JInt 2] [JInt 1; JInt 3]).
  { intros H. apply items_eqb_Forall2 in H. discriminate H. }
  assert (Heq : Forall2 (fun x y => item_eqb x y = true)
                  [JInt 1] [JBool true]).
  { apply items_eqb_Forall2. reflexivity. }
  assert (Hlen : List.length [JInt 1] <> List.length [JInt 1; JInt 1]).
  { simpl. discriminate. }
  split; [exact Hne |].
  split; [| split; [exact Heq | split; [| split; [exact Hlen |]]]].
  - destruct (sequences_are_atomic (KO := insertion_order)
                [JInt 1; JInt 2] [JInt 1; JInt 3] [] [] "ports")
      as (_ & _ & _ & _ & Hkey).
    destruct (sequences_are_atomic (KO := insertion_order)
                [JInt 1; JInt 2] [JInt 1; JInt 3] ["ports"] [] "")
      as (H & _).
    unfold make_patch. rewrite Hkey. exact (H Hne).
  - destruct (sequences_are_atomic (KO := insertion_order)
                [JInt 1] [JBool true] ["ports"] [] "") as (_ & H & _).
    exact (H Heq).
  - destruct (sequences_are_atomic (KO := insertion_order)
                [JInt 1] [JInt 1; JInt 1] ["ports"] [] "") as (_ & _ & H & _).
    exact (H Hlen).
Defined.

(** C6 as stated fails: [1] and [true] are values of different kinds, which
    the differ tells apart under a key, and the sequences [[1]] and [[true]]
    are not element-wise equal as trees; yet no operation is emitted for
    them, at the root or under a key, since [1 == True] and [2 == 2.0]. *)
Lemma sequences_of_other_kinds_are_not_replaced :
  py_type (JInt 1) <> py_type (JBool true)
  /\ ~ same_tree (JArr [JInt 1]) (JArr [JBool true])
  /\ @make_patch insertion_order (JArr [JInt 1]) (JArr [JBool true]) = []
  /\ @make_patch insertion_order
       (JObj [("a", JArr [JInt 1; JInt 2])])
       (JObj [("a", JArr [JBool true; JFloat 1 1])]) = []
  /\ @make_patch insertion_order (JObj [("a", JInt 1)])
       (JObj [("a", JBool true)])
     = [mk_op replace "/a" (Some (JBool true))].
Proof.
  split; [discriminate |]. split; [| repeat split].
  intros H. inversion H as [| | | | | ? ? Hxs | | | ]; subst.
  inversion Hxs as [| ? ? ? ? Hx _]; subst. inversion Hx.
Qed.

Lemma mapping_diff_witness :
  In (mk_op remove "/policy/old" None)
     (_diff (JObj [("old", JInt 1); ("both", JInt 2)])
            (JObj [("both", JInt 3); ("new", JInt 4)]) ["policy"] [])
  /\ In (mk_op add "/policy/new" (Some (JInt 4)))
        (_diff (JObj [("old", JInt 1); ("both", JInt 2)])
               (JObj [("both", JInt 3); ("new", JInt 4)]) ["policy"] [])
  /\ incl (_diff (JInt 2) (JInt 3) ["policy"; "both"] [])
          (_diff (JObj [("old", JInt 1); ("both", JInt 2)])
                 (JObj [("both", JInt 3); ("new", JInt 4)]) ["policy"] []).
Proof.
  destruct (mapping_diff (KO := insertion_order)
              [("old", JInt 1); ("both", JInt 2)]
              [("both", JInt 3); ("new", JInt 4)] ["policy"])
    as (Hrm & Hadd & Hrec & _).
  split; [| split].
  - apply (Hrm "old").
    + left. reflexivity.
    + simpl. intros [H | [H | []]]; discriminate H.
  - apply (Hadd "new" (JInt 4)).
    + right. left. reflexivity.
    + simpl. intros [H | [H | []]]; discriminate H.
  - apply (Hrec "both" (JInt 2) (JInt 3)).
    + reflexivity.
    + left. reflexivity.
Defined.

(** ** Equal trees give the same operations *)

Lemma same_ops_app l1 l1' l2 l2' :
  same_ops l1 l1' -> same_ops l2 l2' -> same_ops (l1 ++ l2) (l1' ++ l2').
Proof.
  intros (m1 & P1 & F1) (m2 & P2 & F2). exists (m1 ++ m2). split.
  - apply Permutation_app; assumption.
  - apply Forall2_app; assumption.
Qed.

Lemma same_ops_perm l0 l l' :
  Permutation l0 l -> same_ops l l' -> same_ops l0 l'.
Proof.
  intros P (m & Pm & F). exists m. split; [| exact F].
  eapply Permutation_trans; eassumption.
Qed.

Lemma same_tree_type a b : same_tree a b -> py_type a = py_type b.
Proof. destruct 1; reflexivity. Qed.

Lemma same_tree_numeric a b : same_tree a b -> numeric a = numeric b.
Proof. destruct 1; reflexivity. Qed.

Lemma keys_perm (a b : list (string * json)) :
  Permutation a b -> Permutation (keys a) (keys b).
Proof. apply Permutation_map. Qed.

Lemma same_entries_keys (R : json -> json -> Prop) a b :
  Forall2 (same_entry R) a b -> keys a = keys b.
Proof.
  induction 1 as [| p q a b [Hk _] _ IH]; [reflexivity |].
  simpl. rewrite Hk, IH. reflexivity.
Qed.

Lemma lookup_perm k a b :
  NoDup (keys a) -> Permutation a b -> lookup k a = lookup k b.
Proof.
  intros Hnd Hp.
  assert (Hnd' : NoDup (keys b)).
  { eapply Permutation_NoDup; [apply keys_perm; exact Hp | exact Hnd]. }
  destruct (lookup k a) as [v |] eqn:Ea.
  - symmetry. apply In_lookup; [exact Hnd' |].
    apply (Permutation_in _ Hp). apply lookup_In. exact Ea.
  - symmetry. apply lookup_None. apply lookup_None in Ea.
    intros Hin. apply Ea.
    apply (Permutation_in _ (Permutation_sym (keys_perm _ _ Hp))). exact Hin.
Qed.

Lemma same_entries_lookup (R : json -> json -> Prop) k a b :
  Forall2 (same_entry R) a b -> same_lookup R (lookup k a) (lookup k b).
Proof.
  induction 1 as [| [k1 v1] [k2 v2] a b [Hk Hv] _ IH]; simpl; [exact I |].
  simpl in Hk, Hv. subst k2.
  destruct (String.eqb k k1); [exact Hv | exact IH].
Qed.

Lemma same_tree_lookup k xs ys :
  same_tree (JObj xs) (JObj ys) ->
  same_lookup same_tree (lookup k xs) (lookup k ys).
Proof.
  intros H. inversion H as [| | | | | | ? xs' ? Hnd Hp Hf | | ]; subst.
  rewrite (lookup_perm k _ _ Hnd Hp). apply same_entries_lookup. exact Hf.
Qed.

Lemma same_tree_keys xs ys :
  same_tree (JObj xs) (JObj ys) ->
  Permutation (keys xs) (keys ys) /\ NoDup (keys xs) /\ NoDup (keys ys).
Proof.
  intros H. inversion H as [| | | | | | ? xs' ? Hnd Hp Hf | | ]; subst.
  assert (P : Permutation (keys xs) (keys ys)).
  { rewrite <- (same_entries_keys _ _ _ Hf). apply keys_perm. exact Hp. }
  repeat split; [exact P | exact Hnd |].
  eapply Permutation_NoDup; eassumption.
Qed.

Lemma entries_eqb_forallb ys xs :
  entries_eqb ys xs
  = forallb (fun p : string * json =>
               match lookup (fst p) ys with
               | Some w => item_eqb (snd p) w
               | None => false
               end) xs.
Proof.
  induction xs as [| [k v] xs IH]; [reflexivity |].
  rewrite entries_eqb_cons. cbn [forallb fst snd].
  destruct (lookup k ys); [| reflexivity]. rewrite IH. reflexivity.
Qed.

Lemma identical_nan_same_tree a a' b b' :
  same_tree a a' -> same_tree b b' ->
  identical_nan a b = identical_nan a' b'.
Proof.
  intros Ha Hb. destruct Ha; destruct Hb; reflexivity.
Qed.

Lemma forallb_perm {A} (f : A -> bool) l l' :
  Permutation l l' -> forallb f l = forallb f l'.
Proof.
  induction 1 as [| x l l' _ IH | x y l | l l' l'' _ IH1 _ IH2]; simpl.
  - reflexivity.
  - rewrite IH. reflexivity.
  - destruct (f x), (f y); reflexivity.
  - congruence.
Qed.

(** [==] does not tell apart two presentations of the same tree. *)
Lemma py_eqb_same_tree a :
  forall a' b b',
    same_tree a a' -> same_tree b b' -> py_eqb a b = py_eqb a' b'.
Proof.
  induction a as [ | c | z | m e | s | xs IH | xs IH | nobj | ineg]
    using json_nested_ind; intros a' b b' Ha Hb.
  - inversion Ha; subst. destruct Hb; reflexivity.
  - inversion Ha; subst. simpl.
    rewrite (same_tree_numeric _ _ Hb). reflexivity.
  - inversion Ha; subst. simpl.
    rewrite (same_tree_numeric _ _ Hb). reflexivity.
  - inversion Ha; subst. simpl.
    rewrite (same_tree_numeric _ _ Hb). reflexivity.
  - inversion Ha; subst. destruct Hb; reflexivity.
  - inversion Ha as [| | | | | ? xs' Hxs | | | ]; subst.
    destruct Hb as [| | | | | ys ys' Hys | | | ]; try reflexivity.
    rewrite !py_eqb_JArr. clear Ha.
    revert ys ys' Hys.
    induction Hxs as [| x x' xs xs' Hx _ IHxs]; intros ys ys' Hys.
    + destruct Hys; reflexivity.
    + inversion IH as [| ? ? IHx IHrest]; subst.
      destruct Hys as [| y y' ys ys' Hy Hys]; [reflexivity |].
      rewrite !items_eqb_cons. unfold item_eqb.
      rewrite (identical_nan_same_tree _ _ _ _ Hx Hy), (IHx _ _ _ Hx Hy),
        (IHxs IHrest _ _ Hys).
      reflexivity.
  - inversion Ha as [| | | | | | ? xs1 xs2 Hnd Hp Hf | | ]; subst.
    destruct Hb as [| | | | | | ys ys1 ys2 Hndy Hpy Hfy | | ]; try reflexivity.
    rewrite !py_eqb_JObj. f_equal.
    + rewrite (Permutation_length Hp), (Forall2_length Hf).
      rewrite (Permutation_length Hpy), (Forall2_length Hfy). reflexivity.
    + rewrite !entries_eqb_forallb. rewrite (forallb_perm _ _ _ Hp).
      assert (IH1 : Forall (fun p => forall a' b b',
                     same_tree (snd p) a' -> same_tree b b' ->
                     py_eqb (snd p) b = py_eqb a' b') xs1).
      { apply Forall_forall. intros p Hin. rewrite Forall_forall in IH.
        apply IH. apply (Permutation_in _ (Permutation_sym Hp)). exact Hin. }
      clear IH Hp Hnd Ha.
      assert (Hlk : forall k, same_lookup same_tree (lookup k ys)
                                (lookup k ys2)).
      { intros k. apply same_tree_lookup.
        econstructor; eassumption. }
      induction Hf as [| [k v] [k' v'] xs1 xs2 [Hk Hv] _ IHf];
        [reflexivity |].
      inversion IH1 as [| ? ? IHv IHrest]; subst.
      simpl in Hk, Hv, IHv. subst k'. cbn [forallb fst snd].
      rewrite (IHf IHrest).
      specialize (Hlk k).
      destruct (lookup k ys) as [w |], (lookup k ys2) as [w' |];
        simpl in Hlk; try contradiction; [| reflexivity].
      unfold item_eqb.
      rewrite (identical_nan_same_tree _ _ _ _ Hv Hlk), (IHv _ _ _ Hv Hlk).
      reflexivity.
  - inversion Ha; subst. reflexivity.
  - inversion Ha; subst. destruct Hb; reflexivity.
Qed.

Lemma same_ops_flat_map (f f' : string * json -> list patch_op) n n1 n2 :
  Permutation n n1 ->
  Forall2 (same_entry same_tree) n1 n2 ->
  (forall p q, In p n -> same_entry same_tree p q -> same_ops (f p) (f' q)) ->
  same_ops (flat_map f n) (flat_map f' n2).
Proof.
  intros Hp Hf Hpt.
  apply same_ops_perm with (l := flat_map f n1).
  { apply Permutation_flat_map. exact Hp. }
  assert (Hpt1 : forall p q, In p n1 -> same_entry same_tree p q ->
                             same_ops (f p) (f' q)).
  { intros p q Hin. apply Hpt.
    apply (Permutation_in _ (Permutation_sym Hp)). exact Hin. }
  clear Hp Hpt.
  induction Hf as [| p q n1 n2 Hpq _ IH]; simpl.
  - exists []. split; constructor.
  - apply same_ops_app.
    + apply Hpt1; [left; reflexivity | exact Hpq].
    + apply IH. intros p' q' Hin. apply Hpt1. right. exact Hin.
Qed.

Lemma filter_ext_perm (f g : string -> bool) l l' :
  Permutation l l' -> (forall k, f k = g k) ->
  Permutation (filter f l) (filter g l').
Proof.
  intros Hp Hfg. rewrite (filter_ext f g Hfg).
  induction Hp as [| x l l' _ IH | x y l | l l' l'' _ IH1 _ IH2]; simpl.
  - constructor.
  - destruct (g x); [constructor |]; exact IH.
  - destruct (g x), (g y); try apply Permutation_refl. apply perm_swap.
  - eapply Permutation_trans; eassumption.
Qed.

Lemma mem_perm k l l' : Permutation l l' -> mem k l = mem k l'.
Proof.
  intros Hp. destruct (mem k l) eqn:E.
  - symmetry. apply mem_In. apply mem_In in E.
    apply (Permutation_in _ Hp). exact E.
  - symmetry. apply mem_false. apply mem_false in E. intros H. apply E.
    apply (Permutation_in _ (Permutation_sym Hp)). exact H.
Qed.

Lemma Forall2_same_refl (l : list patch_op) :
  Forall (fun o => value o = None) l -> Forall2 same_op l l.
Proof.
  induction 1 as [| o l Ho _ IH]; constructor; [| exact IH].
  repeat split. unfold same_value. rewrite Ho. exact I.
Qed.

(** Equal inputs, two runs, each with its own enumeration of sets: the same
    operations come out, in some order. *)
Lemma _diff_same_tree (KO1 KO2 : KeySetOrder) new :
  forall new' old old' parent,
    same_tree old old' -> same_tree new new' ->
    same_ops (@_diff KO1 old new parent []) (@_diff KO2 old' new' parent []).
Proof.
  induction new as [ | c | z | m e | s | xs IH | n IH | nobj | ineg]
    using json_nested_ind; intros new' old old' parent Hold Hnew.
  all: match goal with
       | |- same_ops (_diff ?o ?n _ _) _ =>
           destruct (pytype_eqb (py_type o) (py_type n)) eqn:Ety
       end.
  all: try (rewrite (_diff_type_mismatch _ _ _ _ Ety);
            rewrite (same_tree_type _ _ Hold), (same_tree_type _ _ Hnew)
              in Ety;
            rewrite (_diff_type_mismatch _ _ _ _ Ety);
            eexists; split; [apply Permutation_refl |];
            repeat constructor; exact Hnew).
  all: try (rewrite _diff_leaf by (exact Ety || discriminate);
            rewrite (py_eqb_same_tree _ _ _ _ Hold Hnew);
            rewrite (same_tree_type _ _ Hold), (same_tree_type _ _ Hnew)
              in Ety;
            rewrite _diff_leaf
              by (exact Ety
                  || (rewrite <- (same_tree_type _ _ Hnew); discriminate));
            destruct (py_eqb old' new');
            eexists; (split; [apply Permutation_refl |]);
            repeat constructor; exact Hnew).
  destruct old as [ | | | | | | o | | ]; try discriminate Ety.
  inversion Hold as [| | | | | | ? o1 o' Hndo Hpo Hfo | | ]; subst.
  inversion Hnew as [| | | | | | ? n1 n' Hndn Hpn Hfn | | ]; subst.
  rewrite !_diff_mappings. simpl app.
  destruct (same_tree_keys _ _ Hold) as (Pko & _ & _).
  destruct (same_tree_keys _ _ Hnew) as (Pkn & _ & _).
  apply same_ops_app.
  - exists (@removals parent (@keys_minus KO2 (keys o') (keys n'))). split.
    + unfold removals. apply Permutation_map.
      eapply Permutation_trans; [apply keys_minus_perm |].
      eapply Permutation_trans;
        [| apply Permutation_sym; apply keys_minus_perm].
      apply filter_ext_perm; [exact Pko |].
      intros k. rewrite (mem_perm k _ _ Pkn). reflexivity.
    + apply Forall2_same_refl. unfold removals.
      apply Forall_forall. intros x Hx. apply in_map_iff in Hx.
      destruct Hx as (k & <- & _). reflexivity.
  - apply same_ops_flat_map with (n1 := n1); [exact Hpn | exact Hfn |].
    intros [k v] [k' v'] Hin [Hk Hv]. simpl in Hk, Hv. subst k'.
    unfold key_ops.
    pose proof (same_tree_lookup k _ _ Hold) as Hlk.
    destruct (lookup k o) as [ov |], (lookup k o') as [ov' |];
      simpl in Hlk; try contradiction.
    + rewrite Forall_forall in IH. apply (IH _ Hin); assumption.
    + eexists. split; [apply Permutation_refl |].
      repeat constructor. exact Hv.
Qed.

(** C4, as amended.  The differ walks the keys in the order in which the
    containers enumerate them.  At every pair of mappings the removals come
    first, in the order in which the set difference of the two key sets is
    enumerated, and then, key by key in the enumeration order of the
    desired mapping, the [add] of a key that the current mapping lacks or
    the operations of the diff of the two values of a key that both have.
    Two runs on trees that are equal kind by kind ([same_tree]: the same
    scalars of the same type, sequences of the same elements, mappings with
    the same keys in any order), whatever the enumeration of sets in each
    run, produce the same operations, up to their order in the patch and up
    to the order of keys inside the values they carry.  Equality under [==]
    is not enough for that: [{"a": 1} == {"a": 1.0}], and against
    [{"a": 1}] the first gives the empty patch, the second a [replace]. *)
Theorem diff_of_equal_trees_up_to_order (KO1 KO2 : KeySetOrder)
    (old old' new new' : json) :
  (forall (o n : list (string * json)) (parent : list string),
      @_diff KO1 (JObj o) (JObj n) parent []
      = map (fun k => mk_op remove (_path parent k) None)
          (@keys_minus KO1 (keys o) (keys n))
        ++ flat_map
             (fun kv : string * json =>
                match lookup (fst kv) o with
                | None => [mk_op add (_path parent (fst kv)) (Some (snd kv))]
                | Some ov => @_diff KO1 ov (snd kv) (parent ++ [fst kv]) []
                end) n)
  /\ (same_tree old old' -> same_tree new new' ->
      same_ops (@make_patch KO1 old new) (@make_patch KO2 old' new'))
  /\ (py_eqb (JObj [("a", JInt 1)]) (JObj [("a", JFloat 1 0)]) = true
      /\ @make_patch KO1 (JObj [("a", JInt 1)]) (JObj [("a", JInt 1)]) = []
      /\ @make_patch KO1 (JObj [("a", JFloat 1 0)]) (JObj [("a", JInt 1)])
         = [mk_op replace "/a" (Some (JInt 1))]).
Proof.
  split; [| split].
  - intros o n parent. rewrite _diff_mappings. cbn [app]. unfold removals.
    f_equal. apply flat_map_ext. intros [k v]. reflexivity.
  - intros Hold Hnew. unfold make_patch.
    apply _diff_same_tree; assumption.
  - split; [reflexivity |].
    unfold make_patch.
    split; rewrite _diff_mappings;
      rewrite keys_minus_subset by (intros k H; exact H); reflexivity.
Qed.

Lemma same_tree_new_ab_ba : same_tree new_ab new_ba.
Proof.
  apply same_obj with (xs' := [("b", JInt 2); ("a", JInt 1)]).
  - repeat constructor; simpl; intuition discriminate.
  - apply perm_swap.
  - repeat constructor.
Qed.

Lemma diff_of_equal_trees_up_to_order_witness :
  same_tree (JObj []) (JObj [])
  /\ same_tree new_ab new_ba
  /\ same_ops (@make_patch insertion_order (JObj []) new_ab)
              (@make_patch reversed_order (JObj []) new_ba).
Proof.
  assert (H0 : same_tree (JObj []) (JObj [])).
  { apply same_obj with (xs' := []); constructor. }
  split; [exact H0 |]. split; [exact same_tree_new_ab_ba |].
  destruct (diff_of_equal_trees_up_to_order insertion_order reversed_order
              (JObj []) (JObj []) new_ab new_ba) as (_ & H & _).
  exact (H H0 same_tree_new_ab_ba).
Defined.

(** C4 as stated fails.  The trees [{"a": 1, "b": 2}] and
    [{"b": 2, "a": 1}] are equal, kind by kind and under [==], and their
    diffs against the empty mapping list the two [add]s in different orders;
    and one and the same pair of trees gives its two [remove]s in the order
    in which the set of removed keys happens to be enumerated. *)
Lemma diff_depends_on_enumeration_order :
  same_tree new_ab new_ba
  /\ py_eqb new_ab new_ba = true
  /\ @make_patch insertion_order (JObj []) new_ab
     = [mk_op add "/a" (Some (JInt 1)); mk_op add "/b" (Some (JInt 2))]
  /\ @make_patch insertion_order (JObj []) new_ba
     = [mk_op add "/b" (Some (JInt 2)); mk_op add "/a" (Some (JInt 1))]
  /\ @make_patch insertion_order new_ab (JObj [])
     <> @make_patch reversed_order new_ab (JObj []).
Proof.
  split; [exact same_tree_new_ab_ba |].
  repeat split. intros H. discriminate H.
Qed.

(** ** The endpoint [zpa_enforce] *)

Example scenario_accept :
  fst (zpa_enforce env_on (net_status "Approved") jira0 three_ops "TICK-1"
         ["Approved"] w0)
  = Returned (mk_decision "accepted" None (Some 3)
                (Some "Map patch ops to ZPA API calls in your tenant")).
Proof. reflexivity. Qed.

Example scenario_in_review :
  fst (zpa_enforce env_on (net_status "In Review") jira0 three_ops "TICK-1"
         ["Approved"] w0)
  = Returned (mk_decision "blocked"
                (Some "JIRA status 'In Review' not in allowlist ['Approved']")
                None None).
Proof. reflexivity. Qed.

(** A body that is JSON but not an object has no [get]. *)
Example scenario_array_body :
  zpa_enforce env_on (fun _ => Response 200 "[]" (Some (JArr []))) jira0
    three_ops "TICK-1" ["Approved"] w0
  = (Raised (AttributeError "'list' object has no attribute 'get'"),
     mk_world 1 0 0 ["https://jira.example/rest/api/3/issue/TICK-1"]).
Proof. reflexivity. Qed.

Lemma flag_off_disabled getenv :
  flag_off getenv -> enforcement_enabled getenv = false.
Proof.
  unfold enforcement_enabled, os_getenv.
  intros [Hnone | (v & Hv & Hlow)].
  - rewrite Hnone. reflexivity.
  - rewrite Hv. apply String.eqb_neq. exact Hlow.
Qed.

Lemma flag_on_enabled getenv :
  flag_on getenv -> enforcement_enabled getenv = true.
Proof.
  unfold enforcement_enabled, os_getenv.
  intros (v & Hv & Hlow). rewrite Hv, Hlow. reflexivity.
Qed.

Lemma py_in_string s allow : py_in (JStr s) allow = true <-> In s allow.
Proof.
  unfold py_in. rewrite existsb_exists. split.
  - intros (a & Ha & Heq). simpl in Heq.
    apply String.eqb_eq in Heq. subst a. exact Ha.
  - intros Hin. exists s. split; [exact Hin |]. simpl. apply String.eqb_refl.
Qed.

Lemma py_in_string_false s allow : ~ In s allow -> py_in (JStr s) allow = false.
Proof.
  intros Hn. destruct (py_in (JStr s) allow) eqn:E; [| reflexivity].
  apply py_in_string in E. contradiction.
Qed.

(** Only a string is a member of a list of strings. *)
Lemma py_in_not_string nm allow :
  (forall s, nm <> JStr s) -> py_in nm allow = false.
Proof.
  intros Hns. unfold py_in.
  induction allow as [| a allow IH]; [reflexivity |].
  cbn [existsb]. rewrite IH, orb_false_r.
  destruct nm as [ | | | | s | | | | ]; try reflexivity.
  elim (Hns s). reflexivity.
Qed.

(** The shapes of a JSON body: the chain stops at a missing key, or meets a
    value that has no [get], or reaches a [name]. *)
Lemma body_shapes data :
  no_status_name data = true
  \/ (exists bad, broken_chain data bad)
  \/ (exists nm, has_name data nm).
Proof.
  destruct data as [ | | | | | | d | | ];
    try (right; left; eexists; left; split; [discriminate | reflexivity]).
  cbn [no_status_name].
  destruct (lookup "fields" d) as [fv |] eqn:Ef; [| left; reflexivity].
  destruct fv as [ | | | | | | f | | ];
    try (right; left; eexists; right; exists d;
         split; [reflexivity | left; split; [exact Ef | discriminate]]).
  destruct (lookup "status" f) as [sv |] eqn:Es; [| left; reflexivity].
  destruct sv as [ | | | | | | st | | ];
    try (right; left; eexists; right; exists d;
         split; [reflexivity |];
         right; exists f; split; [exact Ef | split; [exact Es | discriminate]]).
  destruct (lookup "name" st) as [nm |] eqn:En; [| left; reflexivity].
  right. right. exists nm, d, f, st. repeat split; assumption.
Qed.

Section EnforceFacts.
Context {PF : PyFormat}.
Variable getenv : string -> option string.
Variable session_get : string -> http_reply.
Variable jira : JiraConnector.

(** Once the flag is on and the request has produced a response, the
    decision depends on the status name read from the body alone. *)
Lemma zpa_enforce_on_name patch key allow w code text parsed data d f st nm :
  enforcement_enabled getenv = true ->
  session_get (issue_url jira key) = Response code text parsed ->
  data = match parsed with
         | Some j => j
         | None => JObj [("status_code", JInt code); ("text", JStr text)]
         end ->
  data = JObj d ->
  match lookup "fields" d with Some v => v | None => JObj [] end = JObj f ->
  match lookup "status" f with Some v => v | None => JObj [] end = JObj st ->
  match lookup "name" st with Some v => v | None => JStr "" end = nm ->
  zpa_enforce getenv session_get jira patch key allow w
  = if py_in nm allow
    then (Returned (accepted_decision (List.length patch)),
          bump 1 0 [issue_url jira key] w)
    else (Returned (blocked_decision (blocked_reason nm allow)),
          bump 0 1 [issue_url jira key] w).
Proof.
  intros Hon Hget Hdata Hd Hf Hst Hnm.
  unfold zpa_enforce, bind, inc_attempts, get_issue, issue_url in *.
  rewrite Hon. cbn [negb]. cbn [base ZPA_ENFORCE_ATTEMPTS ZPA_ENFORCE_APPLIED
    ZPA_ENFORCE_BLOCKED requests].
  rewrite Hget. rewrite <- Hdata, Hd.
  cbn [py_get lookup String.eqb Ascii.eqb Bool.eqb ret]. rewrite Hf.
  cbn [py_get ret]. rewrite Hst. cbn [py_get ret]. rewrite Hnm.
  destruct (py_in nm allow); reflexivity.
Qed.

Lemma zpa_enforce_no_name patch key allow w code text parsed data :
  enforcement_enabled getenv = true ->
  session_get (issue_url jira key) = Response code text parsed ->
  data = match parsed with
         | Some j => j
         | None => JObj [("status_code", JInt code); ("text", JStr text)]
         end ->
  no_status_name data = true ->
  zpa_enforce getenv session_get jira patch key allow w
  = if py_in (JStr "") allow
    then (Returned (accepted_decision (List.length patch)),
          bump 1 0 [issue_url jira key] w)
    else (Returned (blocked_decision (blocked_reason (JStr "") allow)),
          bump 0 1 [issue_url jira key] w).
Proof.
  intros Hon Hget Hdata Hno.
  destruct data as [ | | | | | | d | | ]; try discriminate Hno.
  cbn [no_status_name] in Hno.
  destruct (lookup "fields" d) as [fv |] eqn:Ef.
  - destruct fv as [ | | | | | | f | | ]; try discriminate Hno.
    destruct (lookup "status" f) as [sv |] eqn:Es.
    + destruct sv as [ | | | | | | st | | ]; try discriminate Hno.
      destruct (lookup "name" st) as [nv |] eqn:En; [discriminate Hno |].
      eapply zpa_enforce_on_name; eauto.
      * rewrite Ef. reflexivity.
      * rewrite Es. reflexivity.
      * rewrite En. reflexivity.
    + eapply zpa_enforce_on_name with (st := []); eauto.
      * rewrite Ef. reflexivity.
      * rewrite Es. reflexivity.
  - eapply zpa_enforce_on_name with (f := []) (st := []); eauto.
    rewrite Ef. reflexivity.
Qed.

(** A value without [get] on the chain: the [AttributeError] leaves
    [zpa_enforce] after the attempt has been counted. *)
Lemma zpa_enforce_broken patch key allow w code text data bad :
  enforcement_enabled getenv = true ->
  session_get (issue_url jira key) = Response code text (Some data) ->
  broken_chain data bad ->
  zpa_enforce getenv session_get jira patch key allow w
  = (Raised (no_get bad), bump 0 0 [issue_url jira key] w).
Proof.
  intros Hon Hget Hb.
  unfold zpa_enforce, bind, inc_attempts, get_issue, issue_url in *.
  rewrite Hon. cbn [negb]. cbn [base ZPA_ENFORCE_ATTEMPTS ZPA_ENFORCE_APPLIED
    ZPA_ENFORCE_BLOCKED requests].
  rewrite Hget.
  cbn [py_get lookup String.eqb Ascii.eqb Bool.eqb ret].
  destruct Hb as [[Hty Heq] | (d & Hd & [[Hf Hty] | (f & Hf & Hst & Hty)])].
  - subst bad. destruct data; try reflexivity. elim Hty. reflexivity.
  - subst data. cbn [py_get ret]. rewrite Hf.
    destruct bad; try reflexivity. elim Hty. reflexivity.
  - subst data. cbn [py_get ret]. rewrite Hf. cbn [py_get ret]. rewrite Hst.
    destruct bad; try reflexivity. elim Hty. reflexivity.
Qed.

(** A [name] that is not a string is in no allowlist. *)
Lemma zpa_enforce_odd_name patch key allow w code text data nm :
  enforcement_enabled getenv = true ->
  session_get (issue_url jira key) = Response code text (Some data) ->
  has_name data nm ->
  (forall s, nm <> JStr s) ->
  zpa_enforce getenv session_get jira patch key allow w
  = (Returned (blocked_decision (blocked_reason nm allow)),
     bump 0 1 [issue_url jira key] w).
Proof.
  intros Hon Hget (d & f & st & Hd & Hf & Hst & Hnm) Hns.
  rewrite (zpa_enforce_on_name patch key allow w code text (Some data)
             data d f st nm Hon Hget eq_refl Hd).
  - rewrite (py_in_not_string _ _ Hns). reflexivity.
  - rewrite Hf. reflexivity.
  - rewrite Hst. reflexivity.
  - rewrite Hnm. reflexivity.
Qed.

Lemma zpa_enforce_request_fails patch key allow w e :
  enforcement_enabled getenv = true ->
  session_get (issue_url jira key) = Failed e ->
  zpa_enforce getenv session_get jira patch key allow w
  = (Raised e, bump 0 0 [issue_url jira key] w).
Proof.
  intros Hon Hget.
  unfold zpa_enforce, bind, inc_attempts, get_issue, issue_url in *.
  rewrite Hon. cbn [negb]. cbn [base ZPA_ENFORCE_ATTEMPTS ZPA_ENFORCE_APPLIED
    ZPA_ENFORCE_BLOCKED requests].
  rewrite Hget. reflexivity.
Qed.

Lemma zpa_enforce_off patch key allow w :
  enforcement_enabled getenv = false ->
  zpa_enforce getenv session_get jira patch key allow w
  = (Returned (blocked_decision
                 "ZPA enforcement disabled (set ZPA_ENABLE_ENFORCE=true)"),
     bump 0 1 [] w).
Proof.
  intros Hoff. unfold zpa_enforce, bind, inc_attempts, inc_blocked, ret.
  rewrite Hoff. cbn. unfold bump. rewrite app_nil_r. reflexivity.
Qed.

End EnforceFacts.

(** *** Claims about [zpa_enforce] *)

(** C1, as amended.  With enforcement on, a lookup that fails ends in one
    of four ways.  When the request itself raises (timeout, transport error)
    the exception reaches the caller of [zpa_enforce]: no decision is
    returned, the attempt is counted and neither the applied nor the blocked
    counter moves.  When a response arrives whose body is not JSON (the
    usual shape of an authorization error), or is a JSON object in which the
    chain [fields], [status], [name] stops at a missing key, the observed
    status is the empty string: the decision is blocked, with the reason
    [JIRA status '' not in allowlist ..], as long as the empty string is not
    allowed, and accepted when it is.  When the body is JSON and the chain
    meets a value that is not a mapping (the body itself, or what is stored
    under [fields] or [status]), the call ends in an [AttributeError], again
    with the attempt counted and no other counter moved.  When [name] is
    stored with a value that is not a string, the decision is blocked
    whatever the allowlist, and the reason shows [str] of that value.  A
    JSON body is of one of these three shapes or names a status. *)
Theorem lookup_failure_outcomes {PF : PyFormat}
    (getenv : string -> option string) (session_get : string -> http_reply)
    (jira : JiraConnector) (patch : list patch_op) (key : string)
    (allow : list string) (w : world) :
  flag_on getenv ->
  (forall e,
      session_get (issue_url jira key) = Failed e ->
      zpa_enforce getenv session_get jira patch key allow w
      = (Raised e,
         mk_world (S (ZPA_ENFORCE_ATTEMPTS w)) (ZPA_ENFORCE_APPLIED w)
                  (ZPA_ENFORCE_BLOCKED w)
                  (requests w ++ [issue_url jira key])))
  /\ (forall code text parsed,
         session_get (issue_url jira key) = Response code text parsed ->
         parsed = None
         \/ (exists data, parsed = Some data /\ no_status_name data = true) ->
         (~ In "" allow ->
          zpa_enforce getenv session_get jira patch key allow w
          = (Returned (blocked_decision
                         ("JIRA status '' not in allowlist "
                          ++ py_repr_list allow)),
             mk_world (S (ZPA_ENFORCE_ATTEMPTS w)) (ZPA_ENFORCE_APPLIED w)
                      (S (ZPA_ENFORCE_BLOCKED w))
                      (requests w ++ [issue_url jira key])))
         /\ (In "" allow ->
             zpa_enforce getenv session_get jira patch key allow w
             = (Returned (accepted_decision (List.length patch)),
                mk_world (S (ZPA_ENFORCE_ATTEMPTS w))
                         (S (ZPA_ENFORCE_APPLIED w)) (ZPA_ENFORCE_BLOCKED w)
                         (requests w ++ [issue_url jira key]))))
  /\ (forall code text data bad,
         session_get (issue_url jira key) = Response code text (Some data) ->
         broken_chain data bad ->
         zpa_enforce getenv session_get jira patch key allow w
         = (Raised (AttributeError
                      ("'" ++ type_name bad
                       ++ "' object has no attribute 'get'")),
            mk_world (S (ZPA_ENFORCE_ATTEMPTS w)) (ZPA_ENFORCE_APPLIED w)
                     (ZPA_ENFORCE_BLOCKED w)
                     (requests w ++ [issue_url jira key])))
  /\ (forall code text data nm,
         session_get (issue_url jira key) = Response code text (Some data) ->
         has_name data nm ->
         (forall s, nm <> JStr s) ->
         zpa_enforce getenv session_get jira patch key allow w
         = (Returned (blocked_decision
                        ("JIRA status '" ++ py_str nm
                         ++ "' not in allowlist " ++ py_repr_list allow)),
            mk_world (S (ZPA_ENFORCE_ATTEMPTS w)) (ZPA_ENFORCE_APPLIED w)
                     (S (ZPA_ENFORCE_BLOCKED w))
                     (requests w ++ [issue_url jira key])))
  /\ (forall data,
         no_status_name data = true
         \/ (exists bad, broken_chain data bad)
         \/ (exists nm,
               has_name data nm
               /\ ((forall s, nm <> JStr s)
                   \/ exists s, has_status_name data s))).
Proof.
  intros Hon. apply flag_on_enabled in Hon.
  split; [| split; [| split; [| split]]].
  - intros e Hget.
    rewrite (zpa_enforce_request_fails _ _ _ _ _ _ _ _ Hon Hget).
    reflexivity.
  - intros code text parsed Hget Hbody.
    assert (Hno : no_status_name
                    match parsed with
                    | Some j => j
                    | None => JObj [("status_code", JInt code);
                                    ("text", JStr text)]
                    end = true).
    { destruct Hbody as [-> | (data & -> & Hd)]; [reflexivity | exact Hd]. }
    rewrite (zpa_enforce_no_name _ _ _ _ _ _ _ _ _ _ _ Hon Hget eq_refl Hno).
    split.
    + intros Hnot. rewrite (py_in_string_false _ _ Hnot).
      unfold blocked_reason. rewrite py_str_JStr. reflexivity.
    + intros Hin. apply py_in_string in Hin. rewrite Hin. reflexivity.
  - intros code text data bad Hget Hbad.
    rewrite (zpa_enforce_broken _ _ _ _ _ _ _ _ _ _ _ Hon Hget Hbad).
    reflexivity.
  - intros code text data nm Hget Hnm Hns.
    rewrite (zpa_enforce_odd_name _ _ _ _ _ _ _ _ _ _ _ Hon Hget Hnm Hns).
    reflexivity.
  - intros data.
    destruct (body_shapes data) as [H | [H | (nm & Hnm)]]; [tauto | tauto |].
    right. right. exists nm. split; [exact Hnm |].
    destruct nm as [ | | | | s | | | | ];
      try (left; intros s0; discriminate).
    right. exists s. exact Hnm.
Qed.

Lemma lookup_failure_outcomes_witness :
  flag_on env_on
  /\ fst (zpa_enforce env_on (fun _ => Failed (TimeoutException "timed out"))
            jira0 three_ops "TICK-1" ["Approved"] w0)
     = Raised (TimeoutException "timed out")
  /\ fst (zpa_enforce env_on (fun _ => Response 401 "Unauthorized" None)
            jira0 three_ops "TICK-1" ["Approved"] w0)
     = Returned (blocked_decision
                   "JIRA status '' not in allowlist ['Approved']")
  /\ broken_chain body_fields_null JNull
  /\ fst (zpa_enforce env_on (fun _ => Response 200 "" (Some body_fields_null))
            jira0 three_ops "TICK-1" ["Approved"] w0)
     = Raised (AttributeError "'NoneType' object has no attribute 'get'")
  /\ has_name body_name_null JNull
  /\ fst (zpa_enforce env_on (fun _ => Response 200 "" (Some body_name_null))
            jira0 three_ops "TICK-1" ["Approved"] w0)
     = Returned (blocked_decision
                   "JIRA status 'None' not in allowlist ['Approved']").
Proof.
  assert (Hon : flag_on env_on).
  { exists "true". split; reflexivity. }
  assert (Hbad : broken_chain body_fields_null JNull).
  { right. eexists. split; [reflexivity |].
    left. split; [reflexivity | discriminate]. }
  assert (Hnm : has_name body_name_null JNull).
  { do 3 eexists. repeat split; reflexivity. }
  split; [exact Hon |].
  split; [| split; [| split; [exact Hbad | split; [| split; [exact Hnm |]]]]].
  - destruct (lookup_failure_outcomes env_on
                (fun _ => Failed (TimeoutException "timed out"))
                jira0 three_ops "TICK-1" ["Approved"] w0 Hon) as [Hraise _].
    rewrite (Hraise _ eq_refl). reflexivity.
  - destruct (lookup_failure_outcomes env_on
                (fun _ => Response 401 "Unauthorized" None)
                jira0 three_ops "TICK-1" ["Approved"] w0 Hon)
      as (_ & Hblock & _).
    destruct (Hblock 401%Z "Unauthorized" None eq_refl (or_introl eq_refl))
      as [Hb _].
    rewrite Hb.
    + reflexivity.
    + simpl. intros [H | []]. discriminate H.
  - destruct (lookup_failure_outcomes env_on
                (fun _ => Response 200 "" (Some body_fields_null))
                jira0 three_ops "TICK-1" ["Approved"] w0 Hon)
      as (_ & _ & Hraise & _).
    rewrite (Hraise 200%Z "" body_fields_null JNull eq_refl Hbad).
    reflexivity.
  - destruct (lookup_failure_outcomes env_on
                (fun _ => Response 200 "" (Some body_name_null))
                jira0 three_ops "TICK-1" ["Approved"] w0 Hon)
      as (_ & _ & _ & Hblock & _).
    rewrite (Hblock 200%Z "" body_name_null JNull eq_refl Hnm).
    + reflexivity.
    + intros s. discriminate.
Defined.

(** C1 as stated fails: a timeout of the request leaves [zpa_enforce] by an
    exception instead of a blocked decision, and a body that is not JSON is
    accepted when the allowlist holds the empty string; where such a body is
    blocked, the reason speaks of an empty status, not of the failure. *)
Lemma lookup_failure_not_always_blocked :
  flag_on env_on
  /\ fst (zpa_enforce env_on (fun _ => Failed (TimeoutException "timed out"))
            jira0 three_ops "TICK-1" ["Approved"] w0)
     = Raised (TimeoutException "timed out")
  /\ fst (zpa_enforce env_on
            (fun _ => Response 502 "<html>Bad Gateway</html>" None)
            jira0 three_ops "TICK-1" [""; "Approved"] w0)
     = Returned (accepted_decision 3)
  /\ fst (zpa_enforce env_on
            (fun _ => Response 502 "<html>Bad Gateway</html>" None)
            jira0 three_ops "TICK-1" ["Approved"] w0)
     = Returned (blocked_decision
                   "JIRA status '' not in allowlist ['Approved']").
Proof.
  split; [exists "true"; split; reflexivity |].
  repeat split; reflexivity.
Qed.

(** C2, as amended.  When the flag is off, which is the case when the
    variable is unset, [zpa_enforce] returns a blocked decision whose reason
    is [ZPA enforcement disabled (set ZPA_ENABLE_ENFORCE=true)]; no request is
    made (the log of requests is unchanged), whatever the network would have
    answered and whatever the allowlist. *)
Theorem enforce_disabled_blocks_without_lookup {PF : PyFormat}
    (getenv : string -> option string) (session_get : string -> http_reply)
    (jira : JiraConnector) (patch : list patch_op) (key : string)
    (allow : list string) (w : world) :
  flag_off getenv ->
  zpa_enforce getenv session_get jira patch key allow w
  = (Returned (blocked_decision
                 "ZPA enforcement disabled (set ZPA_ENABLE_ENFORCE=true)"),
     mk_world (S (ZPA_ENFORCE_ATTEMPTS w)) (ZPA_ENFORCE_APPLIED w)
              (S (ZPA_ENFORCE_BLOCKED w)) (requests w)).
Proof.
  intros Hoff. apply flag_off_disabled in Hoff.
  rewrite (zpa_enforce_off _ _ _ _ _ _ _ Hoff).
  unfold bump. rewrite app_nil_r. reflexivity.
Qed.

Lemma enforce_disabled_blocks_without_lookup_witness :
  flag_off env_unset
  /\ zpa_enforce env_unset (net_status "Approved") jira0 three_ops "TICK-1"
       ["Approved"] w0
     = (Returned (blocked_decision
                    "ZPA enforcement disabled (set ZPA_ENABLE_ENFORCE=true)"),
        mk_world 1 0 1 []).
Proof.
  split; [left; reflexivity |].
  apply (enforce_disabled_blocks_without_lookup env_unset
           (net_status "Approved") jira0 three_ops "TICK-1" ["Approved"] w0).
  left. reflexivity.
Defined.

(** C2 as stated fails on the text of the reason: with the variable unset
    the decision is blocked, but its reason is not the string
    [enforcement disabled]. *)
Lemma disabled_reason_differs :
  flag_off env_unset
  /\ exists d w,
       zpa_enforce env_unset (net_status "Approved") jira0 three_ops "TICK-1"
         ["Approved"] w0 = (Returned d, w)
       /\ reason d <> Some "enforcement disabled".
Proof.
  split; [left; reflexivity |].
  eexists. eexists. split; [reflexivity |].
  simpl. intros H. discriminate H.
Qed.

(** C3.  With enforcement on and a body that names a status [s], the
    decision is settled by whether [s] is, character for character, one of
    the allowed statuses: if it is, the decision is accepted and
    [applied_ops] is the length of the patch; if it is not, and in
    particular if the only allowed status differs from [s] in case alone, the
    decision is blocked and its reason spells out [s] and the allowlist. *)
Theorem allowlist_membership_decides {PF : PyFormat}
    (getenv : string -> option string) (session_get : string -> http_reply)
    (jira : JiraConnector) (patch : list patch_op) (key : string)
    (allow : list string) (w : world)
    (code : Z) (text : string) (data : json) (s : string) :
  flag_on getenv ->
  session_get (issue_url jira key) = Response code text (Some data) ->
  has_status_name data s ->
  (In s allow ->
   zpa_enforce getenv session_get jira patch key allow w
   = (Returned (mk_decision "accepted" None (Some (List.length patch))
                  (Some "Map patch ops to ZPA API calls in your tenant")),
      mk_world (S (ZPA_ENFORCE_ATTEMPTS w)) (S (ZPA_ENFORCE_APPLIED w))
               (ZPA_ENFORCE_BLOCKED w) (requests w ++ [issue_url jira key])))
  /\ (~ In s allow ->
      zpa_enforce getenv session_get jira patch key allow w
      = (Returned (mk_decision "blocked"
                     (Some ("JIRA status '" ++ s ++ "' not in allowlist "
                            ++ py_repr_list allow)%string) None None),
         mk_world (S (ZPA_ENFORCE_ATTEMPTS w)) (ZPA_ENFORCE_APPLIED w)
                  (S (ZPA_ENFORCE_BLOCKED w))
                  (requests w ++ [issue_url jira key])))
  /\ (forall a, allow = [a] -> a <> s -> lower a = lower s ->
      exists why w',
        zpa_enforce getenv session_get jira patch key allow w
        = (Returned (mk_decision "blocked" (Some why) None None), w')).
Proof.
  intros Hon Hget (d & f & st & Hd & Hf & Hst & Hnm).
  apply flag_on_enabled in Hon.
  assert (Hrun :
    zpa_enforce getenv session_get jira patch key allow w
    = if py_in (JStr s) allow
      then (Returned (accepted_decision (List.length patch)),
            bump 1 0 [issue_url jira key] w)
      else (Returned (blocked_decision (blocked_reason (JStr s) allow)),
            bump 0 1 [issue_url jira key] w)).
  { eapply zpa_enforce_on_name with (parsed := Some data); eauto.
    - rewrite Hf. reflexivity.
    - rewrite Hst. reflexivity.
    - rewrite Hnm. reflexivity. }
  assert (Hblocked : ~ In s allow ->
    zpa_enforce getenv session_get jira patch key allow w
    = (Returned (mk_decision "blocked"
                   (Some ("JIRA status '" ++ s ++ "' not in allowlist "
                          ++ py_repr_list allow)%string) None None),
       mk_world (S (ZPA_ENFORCE_ATTEMPTS w)) (ZPA_ENFORCE_APPLIED w)
                (S (ZPA_ENFORCE_BLOCKED w))
                (requests w ++ [issue_url jira key]))).
  { intros Hnot. rewrite Hrun, (py_in_string_false _ _ Hnot).
    unfold blocked_reason. rewrite py_str_JStr. reflexivity. }
  split; [| split].
  - intros Hin. apply py_in_string in Hin. rewrite Hrun, Hin. reflexivity.
  - exact Hblocked.
  - intros a -> Hneq _. eexists. eexists. apply Hblocked.
    simpl. intros [H | []]. contradiction.
Qed.

Lemma allowlist_membership_decides_witness :
  flag_on env_on
  /\ has_status_name (issue_with "Approved") "Approved"
  /\ fst (zpa_enforce env_on (net_status "Approved") jira0 three_ops "TICK-1"
            ["Approved"] w0)
     = Returned (accepted_decision 3)
  /\ has_status_name (issue_with "approved") "approved"
  /\ fst (zpa_enforce env_on (net_status "approved") jira0 three_ops "TICK-1"
            ["Approved"] w0)
     = Returned (blocked_decision
                   "JIRA status 'approved' not in allowlist ['Approved']").
Proof.
  assert (Hon : flag_on env_on).
  { exists "true". split; reflexivity. }
  assert (Hs : forall s, has_status_name (issue_with s) s).
  { intros s. do 3 eexists. repeat split; reflexivity. }
  split; [exact Hon |]. split; [apply Hs |]. split; [| split; [apply Hs |]].
  - destruct (allowlist_membership_decides env_on (net_status "Approved")
                jira0 three_ops "TICK-1" ["Approved"] w0 200%Z ""
                (issue_with "Approved") "Approved" Hon eq_refl (Hs _))
      as [Hacc _].
    rewrite Hacc; [reflexivity | left; reflexivity].
  - destruct (allowlist_membership_decides env_on (net_status "approved")
                jira0 three_ops "TICK-1" ["Approved"] w0 200%Z ""
                (issue_with "approved") "approved" Hon eq_refl (Hs _))
      as [_ [Hblk _]].
    rewrite Hblk; [reflexivity |].
    simpl. intros [H | []]. discriminate H.
Defined.

(** C9, as amended.  Every call of [zpa_enforce] adds one to the attempts
    counter.  A call that returns a decision adds one to exactly one of the
    other two counters, applied for an accepted decision and blocked for a
    blocked one, and leaves the other as it was.  A call that ends in an
    exception leaves both as they were. *)
Theorem enforce_counters {PF : PyFormat}
    (getenv : string -> option string) (session_get : string -> http_reply)
    (jira : JiraConnector) (patch : list patch_op) (key : string)
    (allow : list string) (w : world) :
  let (r, w') := zpa_enforce getenv session_get jira patch key allow w in
  ZPA_ENFORCE_ATTEMPTS w' = S (ZPA_ENFORCE_ATTEMPTS w)
  /\ match r with
     | Returned d =>
         (status d = "accepted"
          /\ ZPA_ENFORCE_APPLIED w' = S (ZPA_ENFORCE_APPLIED w)
          /\ ZPA_ENFORCE_BLOCKED w' = ZPA_ENFORCE_BLOCKED w)
         \/ (status d = "blocked"
             /\ ZPA_ENFORCE_APPLIED w' = ZPA_ENFORCE_APPLIED w
             /\ ZPA_ENFORCE_BLOCKED w' = S (ZPA_ENFORCE_BLOCKED w))
     | Raised _ =>
         ZPA_ENFORCE_APPLIED w' = ZPA_ENFORCE_APPLIED w
         /\ ZPA_ENFORCE_BLOCKED w' = ZPA_ENFORCE_BLOCKED w
     end.
Proof.
  unfold zpa_enforce, bind, inc_attempts, inc_blocked, inc_applied, get_issue,
    ret.
  destruct (enforcement_enabled getenv); cbn [negb].
  2: { cbn. split; [reflexivity | right; repeat split; reflexivity]. }
  destruct (session_get _) as [e | code text parsed].
  { cbn. repeat split; reflexivity. }
  cbn [py_get lookup String.eqb Ascii.eqb Bool.eqb ret].
  set (data := match parsed with Some d => d | None => _ end).
  clearbody data.
  destruct data as [ | | | | | | d | | ];
    try (cbn; repeat split; reflexivity).
  cbn [py_get ret].
  destruct (match lookup "fields" d with Some v => v | None => JObj [] end)
    as [ | | | | | | f | | ];
    try (cbn; repeat split; reflexivity).
  cbn [py_get ret].
  destruct (match lookup "status" f with Some v => v | None => JObj [] end)
    as [ | | | | | | st | | ];
    try (cbn; repeat split; reflexivity).
  cbn [py_get ret].
  destruct (py_in _ allow); cbn.
  - split; [reflexivity | left; repeat split; reflexivity].
  - split; [reflexivity | right; repeat split; reflexivity].
Qed.

(** C9 as stated fails when the lookup raises: the attempt is counted, and
    neither the applied nor the blocked counter moves. *)
Lemma failed_lookup_counts_neither :
  flag_on env_on
  /\ zpa_enforce env_on (fun _ => Failed (ConnectError "connection refused"))
       jira0 three_ops "TICK-1" ["Approved"] w0
     = (Raised (ConnectError "connection refused"),
        mk_world 1 0 0 ["https://jira.example/rest/api/3/issue/TICK-1"]).
Proof.
  split; [exists "true"; split; reflexivity | reflexivity].
Qed.

(** C10, as amended.  With enforcement on and a JSON body, what is read as
    the status depends on the shape of the body.  If the body is a mapping
    in which the chain [fields], [status], [name] stops at a missing key,
    the observed status is the empty string: the decision is blocked when
    the empty string is not allowed, and accepted, with [applied_ops] the
    length of the patch, when the allowlist holds the empty string.  If the
    chain meets a value that is not a mapping (the body itself, or what is
    stored under [fields] or under [status]), the call ends in an
    [AttributeError] and no decision is returned.  If [name] is stored with
    a value that is not a string, the decision is blocked whatever the
    allowlist holds, and the reason shows [str] of that value.  A body that
    carries no status name is of one of these three shapes. *)
Theorem missing_status_name_reads_as_empty {PF : PyFormat}
    (getenv : string -> option string) (session_get : string -> http_reply)
    (jira : JiraConnector) (patch : list patch_op) (key : string)
    (allow : list string) (w : world)
    (code : Z) (text : string) (data : json) :
  flag_on getenv ->
  session_get (issue_url jira key) = Response code text (Some data) ->
  (no_status_name data = true ->
   (~ In "" allow ->
    zpa_enforce getenv session_get jira patch key allow w
    = (Returned (mk_decision "blocked"
                   (Some ("JIRA status '' not in allowlist "
                          ++ py_repr_list allow)%string) None None),
       mk_world (S (ZPA_ENFORCE_ATTEMPTS w)) (ZPA_ENFORCE_APPLIED w)
                (S (ZPA_ENFORCE_BLOCKED w))
                (requests w ++ [issue_url jira key])))
   /\ (In "" allow ->
       zpa_enforce getenv session_get jira patch key allow w
       = (Returned (mk_decision "accepted" None (Some (List.length patch))
                      (Some "Map patch ops to ZPA API calls in your tenant")),
          mk_world (S (ZPA_ENFORCE_ATTEMPTS w)) (S (ZPA_ENFORCE_APPLIED w))
                   (ZPA_ENFORCE_BLOCKED w)
                   (requests w ++ [issue_url jira key]))))
  /\ (forall bad,
         broken_chain data bad ->
         zpa_enforce getenv session_get jira patch key allow w
         = (Raised (AttributeError
                      ("'" ++ type_name bad
                       ++ "' object has no attribute 'get'")),
            mk_world (S (ZPA_ENFORCE_ATTEMPTS w)) (ZPA_ENFORCE_APPLIED w)
                     (ZPA_ENFORCE_BLOCKED w)
                     (requests w ++ [issue_url jira key])))
  /\ (forall nm,
         has_name data nm ->
         (forall s, nm <> JStr s) ->
         zpa_enforce getenv session_get jira patch key allow w
         = (Returned (mk_decision "blocked"
                        (Some ("JIRA status '" ++ py_str nm
                               ++ "' not in allowlist "
                               ++ py_repr_list allow)%string) None None),
            mk_world (S (ZPA_ENFORCE_ATTEMPTS w)) (ZPA_ENFORCE_APPLIED w)
                     (S (ZPA_ENFORCE_BLOCKED w))
                     (requests w ++ [issue_url jira key])))
  /\ ((forall s, ~ has_status_name data s) ->
      no_status_name data = true
      \/ (exists bad, broken_chain data bad)
      \/ (exists nm, has_name data nm /\ forall s, nm <> JStr s)).
Proof.
  intros Hon Hget. apply flag_on_enabled in Hon.
  split; [| split; [| split]].
  - intros Hno.
    rewrite (zpa_enforce_no_name _ _ _ _ _ _ _ _ _ _ _ Hon Hget eq_refl Hno).
    split.
    + intros Hnot. rewrite (py_in_string_false _ _ Hnot).
      unfold blocked_reason. rewrite py_str_JStr. reflexivity.
    + intros Hin. apply py_in_string in Hin. rewrite Hin. reflexivity.
  - intros bad Hbad.
    rewrite (zpa_enforce_broken _ _ _ _ _ _ _ _ _ _ _ Hon Hget Hbad).
    reflexivity.
  - intros nm Hnm Hns.
    rewrite (zpa_enforce_odd_name _ _ _ _ _ _ _ _ _ _ _ Hon Hget Hnm Hns).
    reflexivity.
  - intros Hnone.
    destruct (body_shapes data) as [H | [H | (nm & Hnm)]]; [tauto | tauto |].
    right. right. exists nm. split; [exact Hnm |].
    intros s ->. exact (Hnone s Hnm).
Qed.

Lemma missing_status_name_reads_as_empty_witness :
  flag_on env_on
  /\ no_status_name jira_error_body = true
  /\ fst (zpa_enforce env_on (fun _ => Response 404 "" (Some jira_error_body))
            jira0 three_ops "TICK-1" ["Approved"] w0)
     = Returned (blocked_decision
                   "JIRA status '' not in allowlist ['Approved']")
  /\ fst (zpa_enforce env_on (fun _ => Response 404 "" (Some jira_error_body))
            jira0 three_ops "TICK-1" ["Approved"; ""] w0)
     = Returned (accepted_decision 3)
  /\ broken_chain (JArr []) (JArr [])
  /\ fst (zpa_enforce env_on (fun _ => Response 200 "[]" (Some (JArr [])))
            jira0 three_ops "TICK-1" [""] w0)
     = Raised (AttributeError "'list' object has no attribute 'get'")
  /\ has_name body_name_null JNull
  /\ fst (zpa_enforce env_on (fun _ => Response 200 "" (Some body_name_null))
            jira0 three_ops "TICK-1" [""] w0)
     = Returned (blocked_decision "JIRA status 'None' not in allowlist ['']").
Proof.
  assert (Hon : flag_on env_on).
  { exists "true". split; reflexivity. }
  assert (Hbad : broken_chain (JArr []) (JArr [])).
  { left. split; [discriminate | reflexivity]. }
  assert (Hnm : has_name body_name_null JNull).
  { do 3 eexists. repeat split; reflexivity. }
  split; [exact Hon |]. split; [reflexivity |].
  split; [| split; [| split; [exact Hbad | split; [| split; [exact Hnm |]]]]].
  - destruct (missing_status_name_reads_as_empty env_on
                (fun _ => Response 404 "" (Some jira_error_body))
                jira0 three_ops "TICK-1" ["Approved"] w0 404%Z ""
                jira_error_body Hon eq_refl) as [Hno _].
    destruct (Hno eq_refl) as [Hblk _].
    rewrite Hblk; [reflexivity |].
    simpl. intros [H | []]. discriminate H.
  - destruct (missing_status_name_reads_as_empty env_on
                (fun _ => Response 404 "" (Some jira_error_body))
                jira0 three_ops "TICK-1" ["Approved"; ""] w0 404%Z ""
                jira_error_body Hon eq_refl) as [Hno _].
    destruct (Hno eq_refl) as [_ Hacc].
    rewrite Hacc; [reflexivity |].
    right. left. reflexivity.
  - destruct (missing_status_name_reads_as_empty env_on
                (fun _ => Response 200 "[]" (Some (JArr [])))
                jira0 three_ops "TICK-1" [""] w0 200%Z "[]"
                (JArr []) Hon eq_refl) as (_ & Hraise & _).
    rewrite (Hraise _ Hbad). reflexivity.
  - destruct (missing_status_name_reads_as_empty env_on
                (fun _ => Response 200 "" (Some body_name_null))
                jira0 three_ops "TICK-1" [""] w0 200%Z ""
                body_name_null Hon eq_refl) as (_ & _ & Hblk & _).
    rewrite (Hblk _ Hnm).
    + reflexivity.
    + intros s. discriminate.
Defined.

(** C10 as stated fails: the bodies [{"fields": null}] and [[]] carry no
    status name, and with them the call ends in an exception, neither
    blocked nor accepted; the body whose [name] is [null] carries none
    either, and it is blocked, its status read as [None], although the
    allowlist holds the empty string. *)
Lemma body_without_status_name_not_read_as_empty :
  flag_on env_on
  /\ (forall s, ~ has_status_name body_fields_null s)
  /\ zpa_enforce env_on (fun _ => Response 200 "" (Some body_fields_null))
       jira0 three_ops "TICK-1" [""] w0
     = (Raised (AttributeError "'NoneType' object has no attribute 'get'"),
        mk_world 1 0 0 ["https://jira.example/rest/api/3/issue/TICK-1"])
  /\ zpa_enforce env_on (fun _ => Response 200 "[]" (Some (JArr [])))
       jira0 three_ops "TICK-1" [""] w0
     = (Raised (AttributeError "'list' object has no attribute 'get'"),
        mk_world 1 0 0 ["https://jira.example/rest/api/3/issue/TICK-1"])
  /\ (forall s, ~ has_status_name body_name_null s)
  /\ zpa_enforce env_on (fun _ => Response 200 "" (Some body_name_null))
       jira0 three_ops "TICK-1" [""] w0
     = (Returned (blocked_decision
                    "JIRA status 'None' not in allowlist ['']"),
        mk_world 1 0 1 ["https://jira.example/rest/api/3/issue/TICK-1"]).
Proof.
  split; [exists "true"; split; reflexivity |].
  split; [| split; [reflexivity | split; [reflexivity | split]]].
  - intros s (d & f & st & Hd & Hf & _). injection Hd as <-.
    discriminate Hf.
  - intros s (d & f & st & Hd & Hf & Hst & Hnm).
    injection Hd as <-. injection Hf as <-. injection Hst as <-.
    discriminate Hnm.
  - reflexivity.
Qed.

(** * Further properties *)

(** ** Strings *)

Lemma str_app_assoc (a b c : string) : ((a ++ b) ++ c = a ++ (b ++ c))%string.
Proof. induction a as [| x a IH]; simpl; [reflexivity | rewrite IH; reflexivity]. Qed.

Lemma str_app_nil_r (a : string) : (a ++ "" = a)%string.
Proof. induction a as [| x a IH]; simpl; [reflexivity | rewrite IH; reflexivity]. Qed.

Lemma str_app_inv_head (a x y : string) : (a ++ x = a ++ y)%string -> x = y.
Proof.
  induction a as [| c a IH]; simpl; intros H; [exact H |].
  injection H as H. auto.
Qed.

Lemma join_snoc sep p ps x :
  join sep ((p :: ps) ++ [x]) = (join sep (p :: ps) ++ sep ++ x)%string.
Proof.
  revert p. induction ps as [| q ps IH]; intros p.
  - reflexivity.
  - change (join sep ((p :: q :: ps) ++ [x]))
      with (p ++ sep ++ join sep ((q :: ps) ++ [x]))%string.
    rewrite IH.
    change (join sep (p :: q :: ps)) with (p ++ sep ++ join sep (q :: ps))%string.
    rewrite !str_app_assoc. reflexivity.
Qed.

(** ** [_path] and [escape] *)

Lemma escape_cons c k :
  escape (String c k)
  = ((if Ascii.eqb c "~" then "~0"
      else if Ascii.eqb c "/" then "~1" else String c "") ++ escape k)%string.
Proof.
  unfold escape. simpl.
  destruct (Ascii.eqb c "~") eqn:E1.
  - reflexivity.
  - simpl. destruct (Ascii.eqb c "/"); reflexivity.
Qed.

Lemma unescape_plain c r :
  Ascii.eqb c "~" = false -> unescape (String c r) = String c (unescape r).
Proof.
  intros E. destruct r as [| d r]; simpl; [reflexivity |].
  rewrite E. reflexivity.
Qed.

Lemma unescape_escape s : unescape (escape s) = s.
Proof.
  induction s as [| c s IH]; [reflexivity |].
  rewrite escape_cons.
  destruct (Ascii.eqb c "~") eqn:E1.
  - apply Ascii.eqb_eq in E1. subst c. simpl. rewrite IH. reflexivity.
  - destruct (Ascii.eqb c "/") eqn:E2.
    + apply Ascii.eqb_eq in E2. subst c. simpl. rewrite IH. reflexivity.
    + change (String c "" ++ escape s)%string with (String c (escape s)).
      rewrite (unescape_plain c _ E1), IH. reflexivity.
Qed.

(** X1.  [escape] loses nothing and leaves no separator: decoding [~0] and
    [~1] gives the key back, so two keys with the same escaped form are the
    same key, and the escaped form of a key holds no [/]. *)
Theorem escape_round_trip (k : string) :
  unescape (escape k) = k
  /\ ~ In "/"%char (list_ascii_of_string (escape k))
  /\ (forall k', escape k = escape k' -> k = k').
Proof.
  pose proof unescape_escape as Hrt.
  split; [apply Hrt |]. split.
  - induction k as [| c k IH]; [intros [] |].
    rewrite escape_cons.
    destruct (Ascii.eqb c "~") eqn:E1.
    + simpl. intros [H | [H | H]]; try discriminate H. exact (IH H).
    + destruct (Ascii.eqb c "/") eqn:E2.
      * simpl. intros [H | [H | H]]; try discriminate H. exact (IH H).
      * simpl. intros [H | H]; [| exact (IH H)].
        apply Ascii.eqb_neq in E2. congruence.
  - intros k' H. rewrite <- (Hrt k), <- (Hrt k'), H. reflexivity.
Qed.

Lemma _path_root k : _path [] k = ("/" ++ escape k)%string.
Proof.
  unfold _path. simpl. destruct (String.eqb k "") eqn:E; [| reflexivity].
  apply String.eqb_eq in E. subst k. reflexivity.
Qed.

Lemma _path_nested p ps k :
  _path (p :: ps) k = ("/" ++ join "/" (p :: ps) ++ "/" ++ escape k)%string.
Proof. unfold _path. cbn [is_nil negb orb]. rewrite join_snoc. reflexivity. Qed.

(** X2.  Under one parent, [_path] sends different keys to different
    paths. *)
Theorem _path_injective (parent : list string) (a b : string) :
  _path parent a = _path parent b -> a = b.
Proof.
  intros H.
  assert (He : escape a = escape b).
  { destruct parent as [| p ps].
    - rewrite !_path_root in H. apply str_app_inv_head in H. exact H.
    - rewrite !_path_nested in H.
      apply str_app_inv_head in H. apply str_app_inv_head in H.
      apply str_app_inv_head in H. exact H. }
  rewrite <- (unescape_escape a), <- (unescape_escape b), He. reflexivity.
Qed.

Lemma _path_injective_witness :
  _path ["policy"] "a/b" = "/policy/a~1b"
  /\ (_path ["policy"] "a/b" = _path ["policy"] "a/b" -> "a/b" = "a/b").
Proof.
  split; [reflexivity |]. apply (_path_injective ["policy"] "a/b" "a/b").
Defined.

(** ** What the differ emits *)

Section DifferFurther.
Context {KO : KeySetOrder}.

Lemma _path_under parent k :
  exists rest, _path parent k = ("/" ++ join "/" parent ++ rest)%string.
Proof.
  destruct parent as [| p ps].
  - exists (escape k). apply _path_root.
  - exists ("/" ++ escape k)%string. apply _path_nested.
Qed.

Lemma join_under parent k :
  exists rest, join "/" (parent ++ [k]) = (join "/" parent ++ rest)%string.
Proof.
  destruct parent as [| p ps].
  - exists k. reflexivity.
  - exists ("/" ++ k)%string. apply join_snoc.
Qed.

(** X3.  Every operation that [_diff] emits for a pair of trees met under
    [parent] has a path that extends the path of [parent]: the operations of
    a subtree stay beneath it, and every path of a patch starts with [/]. *)
Theorem diff_paths_extend_parent (new : json) :
  forall (old : json) (parent : list string) (o : patch_op),
    In o (_diff old new parent []) ->
    exists rest, path o = ("/" ++ join "/" parent ++ rest)%string.
Proof.
  induction new as [ | b | z | m e | s | items IH | n IH | nobj | ineg]
    using json_nested_ind; intros old parent o.
  all: match goal with
       | |- In _ (_diff ?a ?b _ _) -> _ =>
           destruct (pytype_eqb (py_type a) (py_type b)) eqn:Ety
       end.
  all: try (rewrite (_diff_type_mismatch _ _ _ _ Ety);
            intros [<- | []]; exists ""; simpl;
            destruct parent; simpl; rewrite ?str_app_nil_r; reflexivity).
  all: try (rewrite _diff_leaf by (exact Ety || discriminate);
            destruct (py_eqb old _); [intros [] |];
            intros [<- | []]; exists ""; simpl;
            rewrite str_app_nil_r; reflexivity).
  destruct old as [ | | | | | | oe | | ]; try discriminate Ety.
  rewrite _diff_mappings. simpl app. intros Hin.
  apply in_app_or in Hin. destruct Hin as [Hin | Hin].
  - unfold removals in Hin. apply in_map_iff in Hin.
    destruct Hin as (k & <- & _). simpl. apply _path_under.
  - apply in_flat_map in Hin. destruct Hin as ([k v] & Hkv & Hin).
    simpl in Hin. destruct (lookup k oe) as [ov |].
    + rewrite Forall_forall in IH.
      destruct (IH _ Hkv ov (parent ++ [k]) o Hin) as (rest & Hrest).
      destruct (join_under parent k) as (r2 & Hr2).
      exists (r2 ++ rest)%string. rewrite Hrest. simpl in *.
      rewrite Hr2, str_app_assoc. reflexivity.
    + destruct Hin as [<- | []]. simpl. apply _path_under.
Qed.

(** X4.  A [remove] carries no value; an [add] or a [replace] carries a
    value, and that value is the desired tree or the value of a key inside
    it: nothing of the current tree is ever copied into the patch. *)
Theorem diff_values_come_from_desired (new : json) :
  forall (old : json) (parent : list string) (o : patch_op),
    In o (_diff old new parent []) ->
    match value o with
    | None => op o = remove
    | Some v => op o <> remove /\ value_in v new
    end.
Proof.
  induction new as [ | b | z | m e | s | items IH | n IH | nobj | ineg]
    using json_nested_ind; intros old parent o.
  all: match goal with
       | |- In _ (_diff ?a ?b _ _) -> _ =>
           destruct (pytype_eqb (py_type a) (py_type b)) eqn:Ety
       end.
  all: try (rewrite (_diff_type_mismatch _ _ _ _ Ety);
            intros [<- | []]; simpl; split;
            [discriminate | apply value_here]).
  all: try (rewrite _diff_leaf by (exact Ety || discriminate);
            destruct (py_eqb old _); [intros [] |];
            intros [<- | []]; simpl; split;
            [discriminate | apply value_here]).
  destruct old as [ | | | | | | oe | | ]; try discriminate Ety.
  rewrite _diff_mappings. simpl app. intros Hin.
  apply in_app_or in Hin. destruct Hin as [Hin | Hin].
  - unfold removals in Hin. apply in_map_iff in Hin.
    destruct Hin as (k & <- & _). reflexivity.
  - apply in_flat_map in Hin. destruct Hin as ([k v] & Hkv & Hin).
    simpl in Hin. destruct (lookup k oe) as [ov |].
    + rewrite Forall_forall in IH.
      pose proof (IH _ Hkv ov (parent ++ [k]) o Hin) as Hv. simpl in Hv.
      destruct (value o) as [x |]; [| exact Hv].
      destruct Hv as [Hop Hx]. split; [exact Hop |].
      eapply value_under; eassumption.
    + destruct Hin as [<- | []]. simpl. split; [discriminate |].
      eapply value_under; [eassumption | apply value_here].
Qed.

Lemma keys_length (d : list (string * json)) :
  List.length (keys d) = List.length d.
Proof. apply length_map. Qed.

Lemma In_keys k (d : list (string * json)) :
  In k (keys d) -> exists v, In (k, v) d.
Proof.
  unfold keys. intros H. apply in_map_iff in H.
  destruct H as ([k' v] & Hk & Hin). simpl in Hk. subst. eauto.
Qed.

Lemma entries_eqb_true ys xs :
  (forall k v, In (k, v) xs ->
     exists w, lookup k ys = Some w /\ py_eqb v w = true) ->
  entries_eqb ys xs = true.
Proof.
  induction xs as [| [k v] xs IH]; intros H; [reflexivity |].
  rewrite entries_eqb_cons.
  destruct (H k v (or_introl eq_refl)) as (w & Hw & He).
  rewrite Hw, (item_eqb_of_eq _ _ He). cbn [andb].
  apply IH. intros k' v' Hin. apply H. right. exact Hin.
Qed.

(** X5.  The differ misses nothing that [==] sees: if the patch of two
    well-formed trees is empty, the trees are equal under [==]. *)
Theorem empty_diff_means_equal (new : json) :
  forall (old : json) (parent : list string),
    wf_json old = true -> wf_json new = true ->
    _diff old new parent [] = [] ->
    py_eqb old new = true.
Proof.
  induction new as [ | b | z | m e | s | items IH | n IH | nobj | ineg]
    using json_nested_ind; intros old parent Hwo Hwn.
  all: match goal with
       | |- _diff ?a ?b _ _ = _ -> _ =>
           destruct (pytype_eqb (py_type a) (py_type b)) eqn:Ety
       end.
  all: try (rewrite (_diff_type_mismatch _ _ _ _ Ety); discriminate).
  all: try (rewrite _diff_leaf by (exact Ety || discriminate);
            destruct (py_eqb old _); [reflexivity | discriminate]).
  destruct old as [ | | | | | | oe | | ]; try discriminate Ety.
  rewrite _diff_mappings. simpl app. intros Hnil.
  apply app_eq_nil in Hnil. destruct Hnil as [Hrm Hfm].
  apply wf_JObj in Hwo. destruct Hwo as [Hndo Hwo].
  apply wf_JObj in Hwn. destruct Hwn as [Hndn Hwn].
  rewrite Forall_forall in IH, Hwo, Hwn.
  assert (Hon : forall k, In k (keys oe) -> In k (keys n)).
  { intros k Hk. destruct (in_dec string_dec k (keys n)) as [Hy | Hno];
      [exact Hy |].
    assert (Hin : In k (keys_minus (keys oe) (keys n)))
      by (apply keys_minus_In; split; assumption).
    unfold removals in Hrm. apply map_eq_nil in Hrm.
    rewrite Hrm in Hin. destruct Hin. }
  assert (Hkey : forall k v, In (k, v) n ->
            exists ov, lookup k oe = Some ov
                       /\ _diff ov v (parent ++ [k]) [] = []).
  { intros k v Hin.
    assert (Hz : key_ops oe parent (k, v) = []).
    { destruct (key_ops oe parent (k, v)) as [| x l] eqn:E; [reflexivity |].
      assert (Hx : In x (flat_map (key_ops oe parent) n)).
      { apply in_flat_map. exists (k, v). split; [exact Hin |].
        rewrite E. left. reflexivity. }
      rewrite Hfm in Hx. destruct Hx. }
    simpl in Hz. destruct (lookup k oe) as [ov |]; [| discriminate Hz].
    exists ov. split; [reflexivity | exact Hz]. }
  assert (Hno : forall k, In k (keys n) -> In k (keys oe)).
  { intros k Hk. apply In_keys in Hk. destruct Hk as (v & Hin).
    destruct (Hkey k v Hin) as (ov & Hov & _).
    apply lookup_In in Hov. unfold keys.
    apply (in_map fst) in Hov. exact Hov. }
  rewrite py_eqb_JObj. apply andb_true_iff. split.
  - apply Nat.eqb_eq. rewrite <- !keys_length.
    apply Nat.le_antisymm; apply NoDup_incl_length; assumption.
  - apply entries_eqb_true. intros k ov Hin.
    assert (Hk : In k (keys n)).
    { apply Hon. unfold keys. apply (in_map fst) in Hin. exact Hin. }
    apply In_keys in Hk. destruct Hk as (v & Hv).
    exists v. split; [apply In_lookup; assumption |].
    destruct (Hkey k v Hv) as (ov' & Hov' & Hd).
    rewrite (In_lookup _ _ _ Hndo Hin) in Hov'. injection Hov' as <-.
    pose proof (IH _ Hv ov (parent ++ [k]) (Hwo _ Hin) (Hwn _ Hv) Hd) as He.
    exact He.
Qed.

(** X6.  [_diff] only appends to the patch it is given: the operations
    already there stay in front, unchanged, and what is appended does not
    depend on them, so two diffs run one after the other into one patch give
    the concatenation of their patches. *)
Theorem diff_extends_given_patch (old new old' new' : json)
    (parent parent' : list string) (patch : list patch_op) :
  firstn (List.length patch) (_diff old new parent patch) = patch
  /\ skipn (List.length patch) (_diff old new parent patch)
     = _diff old new parent []
  /\ _diff old' new' parent' (_diff old new parent [])
     = _diff old new parent [] ++ _diff old' new' parent' [].
Proof.
  rewrite (_diff_app new old parent patch).
  split; [| split].
  - rewrite firstn_app, Nat.sub_diag, firstn_all. simpl.
    apply app_nil_r.
  - rewrite skipn_app, Nat.sub_diag, skipn_all. reflexivity.
  - apply _diff_app.
Qed.

End DifferFurther.

Lemma empty_diff_means_equal_witness :
  wf_json new_ab = true /\ wf_json new_ba = true
  /\ @_diff insertion_order new_ab new_ba [] [] = []
  /\ py_eqb new_ab new_ba = true.
Proof.
  split; [reflexivity |]. split; [reflexivity |]. split; [reflexivity |].
  apply (empty_diff_means_equal (KO := insertion_order) new_ba new_ab []);
    reflexivity.
Defined.

Lemma diff_values_come_from_desired_witness :
  In (mk_op add "/new" (Some (JInt 4)))
     (@_diff insertion_order (JObj [("old", JInt 1)])
        (JObj [("new", JInt 4)]) [] [])
  /\ value_in (JInt 4) (JObj [("new", JInt 4)]).
Proof.
  assert (Hin : In (mk_op add "/new" (Some (JInt 4)))
                  (@_diff insertion_order (JObj [("old", JInt 1)])
                     (JObj [("new", JInt 4)]) [] [])).
  { right. left. reflexivity. }
  split; [exact Hin |].
  exact (proj2 (diff_values_come_from_desired (KO := insertion_order)
                  (JObj [("new", JInt 4)]) (JObj [("old", JInt 1)]) []
                  (mk_op add "/new" (Some (JInt 4))) Hin)).
Defined.

Lemma diff_paths_extend_parent_witness :
  In (mk_op replace "/a/x" (Some (JInt 2)))
     (@_diff insertion_order (JObj [("x", JInt 1)]) (JObj [("x", JInt 2)])
        ["a"] [])
  /\ exists rest, "/a/x" = ("/" ++ join "/" ["a"] ++ rest)%string.
Proof.
  assert (Hin : In (mk_op replace "/a/x" (Some (JInt 2)))
                  (@_diff insertion_order (JObj [("x", JInt 1)])
                     (JObj [("x", JInt 2)]) ["a"] [])).
  { left. reflexivity. }
  split; [exact Hin |].
  exact (diff_paths_extend_parent (KO := insertion_order)
           (JObj [("x", JInt 2)]) (JObj [("x", JInt 1)]) ["a"]
           (mk_op replace "/a/x" (Some (JInt 2))) Hin).
Defined.

(** ** [summarize_patch] *)

Lemma summary_line_inv (o1 o2 : patch_op) :
  (upper (op_text (op o1)) ++ " " ++ path o1
   = upper (op_text (op o2)) ++ " " ++ path o2)%string ->
  op o1 = op o2 /\ path o1 = path o2.
Proof.
  destruct o1 as [n1 p1 v1], o2 as [n2 p2 v2]. simpl.
  destruct n1, n2; cbn; intros H;
    try (injection H as H; split; [reflexivity | exact H]);
    discriminate H.
Qed.

(** X7.  The summary keeps everything of a patch but the values: there is
    one line per operation, and two patches with the same summary have the
    same operation names and the same paths, position by position. *)
Theorem summary_determines_ops_and_paths (p1 p2 : list patch_op) :
  List.length (summarize_patch p1) = List.length p1
  /\ (summarize_patch p1 = summarize_patch p2 ->
      map op p1 = map op p2 /\ map path p1 = map path p2).
Proof.
  split; [apply length_map |].
  revert p2. induction p1 as [| o1 p1 IH]; intros [| o2 p2]; simpl;
    try discriminate; [split; reflexivity |].
  intros H. injection H as Hline Hrest.
  destruct (summary_line_inv _ _ Hline) as [Ho Hp].
  destruct (IH _ Hrest) as [Hos Hps].
  rewrite Ho, Hp, Hos, Hps. split; reflexivity.
Qed.

Lemma summary_determines_ops_and_paths_witness :
  summarize_patch three_ops = ["ADD /a"; "REMOVE /b"; "REPLACE /c"]
  /\ map op three_ops = map op three_ops
  /\ map path three_ops = map path three_ops.
Proof.
  split; [reflexivity |].
  exact (proj2 (summary_determines_ops_and_paths three_ops three_ops)
           eq_refl).
Defined.

(** ** More on [zpa_enforce] *)

Lemma enabled_flag_on getenv :
  enforcement_enabled getenv = true -> flag_on getenv.
Proof.
  unfold enforcement_enabled, os_getenv, flag_on.
  destruct (getenv "ZPA_ENABLE_ENFORCE") as [v |]; intros H.
  - exists v. split; [reflexivity |]. apply String.eqb_eq. exact H.
  - discriminate H.
Qed.

Lemma py_eqb_JStr_r x a : py_eqb x (JStr a) = true -> x = JStr a.
Proof.
  destruct x; simpl; try discriminate.
  intros H. apply String.eqb_eq in H. subst. reflexivity.
Qed.

Lemma py_in_true x allow :
  py_in x allow = true -> exists s, x = JStr s /\ In s allow.
Proof.
  unfold py_in. rewrite existsb_exists. intros (a & Ha & He).
  exists a. split; [apply py_eqb_JStr_r; exact He | exact Ha].
Qed.

(** X8.  An accepted decision is returned only when enforcement is on, the
    request was answered, and the status read from the answer (the name
    under [fields] / [status], or the empty string where the body is not
    JSON or the chain stops at a missing key) is a string of the allowlist;
    the decision then counts the operations of the patch. *)
Theorem accepted_requires_allowed_status {PF : PyFormat}
    (getenv : string -> option string) (session_get : string -> http_reply)
    (jira : JiraConnector) (patch : list patch_op) (key : string)
    (allow : list string) (w w' : world) (d : decision) :
  zpa_enforce getenv session_get jira patch key allow w = (Returned d, w') ->
  status d = "accepted" ->
  flag_on getenv
  /\ exists code text parsed s,
       session_get (issue_url jira key) = Response code text parsed
       /\ In s allow
       /\ (let data :=
             match parsed with
             | Some j => j
             | None => JObj [("status_code", JInt code); ("text", JStr text)]
             end in
           has_status_name data s \/ (no_status_name data = true /\ s = ""))
       /\ d = mk_decision "accepted" None (Some (List.length patch))
                (Some "Map patch ops to ZPA API calls in your tenant").
Proof.
  intros Hrun Hacc.
  destruct (enforcement_enabled getenv) eqn:Hon.
  2: { rewrite (zpa_enforce_off _ _ _ _ _ _ _ Hon) in Hrun.
       injection Hrun as <- _. discriminate Hacc. }
  split; [apply enabled_flag_on; exact Hon |].
  destruct (session_get (issue_url jira key)) as [e | code text parsed] eqn:Hget.
  { rewrite (zpa_enforce_request_fails _ _ _ _ _ _ _ _ Hon Hget) in Hrun.
    discriminate Hrun. }
  exists code, text, parsed.
  set (data := match parsed with
               | Some j => j
               | None => JObj [("status_code", JInt code); ("text", JStr text)]
               end) in *.
  assert (Hshape :
    (exists dd f st nm,
        data = JObj dd
        /\ match lookup "fields" dd with Some v => v | None => JObj [] end
           = JObj f
        /\ match lookup "status" f with Some v => v | None => JObj [] end
           = JObj st
        /\ match lookup "name" st with Some v => v | None => JStr "" end = nm
        /\ py_in nm allow = true)).
  { revert Hrun.
    unfold zpa_enforce, bind, inc_attempts, get_issue, issue_url in *.
    rewrite Hon. cbn [negb]. cbn [base ZPA_ENFORCE_ATTEMPTS
      ZPA_ENFORCE_APPLIED ZPA_ENFORCE_BLOCKED requests].
    rewrite Hget. fold data.
    cbn [py_get lookup String.eqb Ascii.eqb Bool.eqb ret].
    destruct data as [ | | | | | | dd | | ]; try (cbn; discriminate).
    cbn [py_get ret].
    destruct (match lookup "fields" dd with Some v => v | None => JObj [] end)
      as [ | | | | | | f | | ] eqn:Ef; try (cbn; discriminate).
    cbn [py_get ret].
    destruct (match lookup "status" f with Some v => v | None => JObj [] end)
      as [ | | | | | | st | | ] eqn:Es; try (cbn; discriminate).
    cbn [py_get ret].
    destruct (py_in _ allow) eqn:Ein; cbn.
    - intros _. exists dd, f, st. eexists. repeat split; eassumption.
    - intros H. injection H as <- _. discriminate Hacc. }
  destruct Hshape as (dd & f & st & nm & Hd & Hf & Hst & Hnm & Hin).
  pose proof (zpa_enforce_on_name getenv session_get jira patch key allow w
                code text parsed data dd f st nm Hon Hget eq_refl Hd Hf Hst
                Hnm) as Heq.
  rewrite Hin, Hrun in Heq. injection Heq as -> _.
  apply py_in_true in Hin. destruct Hin as (s & -> & Hs).
  exists s. split; [reflexivity |]. split; [exact Hs |].
  split; [| reflexivity].
  cbn zeta. rewrite Hd. unfold has_status_name. cbn [no_status_name].
  destruct (lookup "fields" dd) as [fv |] eqn:Lf.
  - subst fv. destruct (lookup "status" f) as [sv |] eqn:Ls.
    + subst sv. destruct (lookup "name" st) as [nv |] eqn:Ln.
      * subst nv. left. exists dd, f, st. repeat split; assumption.
      * right. split; [reflexivity |]. congruence.
    + right. split; [reflexivity |].
      injection Hst as <-. simpl in Hnm. congruence.
  - right. split; [reflexivity |].
    injection Hf as <-. simpl in Hst. injection Hst as <-. simpl in Hnm.
    congruence.
Qed.

Lemma accepted_requires_allowed_status_witness :
  zpa_enforce env_on (net_status "Approved") jira0 three_ops "TICK-1"
    ["Approved"] w0
  = (Returned (accepted_decision 3),
     mk_world 1 1 0 ["https://jira.example/rest/api/3/issue/TICK-1"])
  /\ flag_on env_on.
Proof.
  split; [reflexivity |].
  exact (proj1 (accepted_requires_allowed_status env_on
                  (net_status "Approved") jira0 three_ops "TICK-1"
                  ["Approved"] w0 _ _ eq_refl eq_refl)).
Defined.

(** X9.  A call of [zpa_enforce] makes no request when enforcement is off
    and exactly one when it is on, for the issue it was given, whatever
    comes back: there is no retry and no second lookup, on any path. *)
Theorem enforce_requests_once {PF : PyFormat}
    (getenv : string -> option string) (session_get : string -> http_reply)
    (jira : JiraConnector) (patch : list patch_op) (key : string)
    (allow : list string) (w : world) :
  requests (snd (zpa_enforce getenv session_get jira patch key allow w))
  = requests w
    ++ (if enforcement_enabled getenv
        then [(base jira ++ "/rest/api/3/issue/" ++ key)%string]
        else []).
Proof.
  unfold zpa_enforce, bind, inc_attempts, inc_blocked, inc_applied, get_issue,
    ret.
  destruct (enforcement_enabled getenv); cbn [negb].
  2: { cbn. rewrite app_nil_r. reflexivity. }
  destruct (session_get _) as [e | code text parsed].
  { reflexivity. }
  cbn [py_get lookup String.eqb Ascii.eqb Bool.eqb ret].
  set (data := match parsed with Some d => d | None => _ end).
  clearbody data.
  destruct data as [ | | | | | | d | | ]; try reflexivity.
  cbn [py_get ret].
  destruct (match lookup "fields" d with Some v => v | None => JObj [] end)
    as [ | | | | | | f | | ]; try reflexivity.
  cbn [py_get ret].
  destruct (match lookup "status" f with Some v => v | None => JObj [] end)
    as [ | | | | | | st | | ]; try reflexivity.
  cbn [py_get ret].
  destruct (py_in _ allow); reflexivity.
Qed.

(** ** merge.py *)

Example merge_two_scans :
  @merge_iocs insertion_enum [scan_a; None; scan_b]
  = [("ipv4", ["10.0.0.1"; "10.0.0.2"]);
     ("domain", ["a.example"; "b.example"])].
Proof. reflexivity. Qed.

(** A key whose list is empty in every result is never touched, and is not
    in the merged dict. *)
Example merge_drops_empty_kind :
  @merge_iocs insertion_enum [Some [("md5", []); ("sha1", ["ab"])]]
  = [("sha1", ["ab"])].
Proof. reflexivity. Qed.

(** *** The order of strings and [sorted] *)

Lemma str_leb_iff a b :
  String.leb a b = true <-> a = b \/ OrderedTypeEx.String_as_OT.lt a b.
Proof.
  unfold String.leb.
  destruct (String.compare a b) eqn:E.
  - apply String.compare_eq_iff in E. tauto.
  - apply OrderedTypeEx.String_as_OT.cmp_lt in E. tauto.
  - split; [discriminate |]. intros [H | H].
    + apply OrderedTypeEx.String_as_OT.cmp_eq in H.
      unfold OrderedTypeEx.String_as_OT.cmp in H. congruence.
    + apply OrderedTypeEx.String_as_OT.cmp_lt in H.
      unfold OrderedTypeEx.String_as_OT.cmp in H. congruence.
Qed.

Lemma str_lt_iff a b : str_lt a b <-> OrderedTypeEx.String_as_OT.lt a b.
Proof.
  unfold str_lt, String.ltb.
  rewrite <- OrderedTypeEx.String_as_OT.cmp_lt.
  unfold OrderedTypeEx.String_as_OT.cmp.
  destruct (String.compare a b); split; congruence.
Qed.

Lemma str_lt_trans a b c : str_lt a b -> str_lt b c -> str_lt a c.
Proof.
  rewrite !str_lt_iff. apply OrderedTypeEx.String_as_OT.lt_trans.
Qed.

Lemma str_lt_irrefl a : ~ str_lt a a.
Proof.
  rewrite str_lt_iff. intros H.
  apply (OrderedTypeEx.String_as_OT.lt_not_eq _ _ H). reflexivity.
Qed.

Lemma str_leb_trans a b c :
  String.leb a b = true -> String.leb b c = true -> String.leb a c = true.
Proof.
  rewrite !str_leb_iff. intros [-> | H1] [-> | H2]; auto.
  right. eapply OrderedTypeEx.String_as_OT.lt_trans; eassumption.
Qed.

Lemma str_leb_neq_lt a b : String.leb a b = true -> a <> b -> str_lt a b.
Proof.
  rewrite str_leb_iff, str_lt_iff. intros [-> | H] Hne; [congruence | exact H].
Qed.

Lemma insert_sorted_perm x l : Permutation (insert_sorted x l) (x :: l).
Proof.
  induction l as [| y l IH]; simpl; [apply Permutation_refl |].
  destruct (String.leb x y); [apply Permutation_refl |].
  eapply Permutation_trans; [apply perm_skip; exact IH | apply perm_swap].
Qed.

Lemma py_sorted_perm l : Permutation (py_sorted l) l.
Proof.
  induction l as [| x l IH]; simpl; [constructor |].
  eapply Permutation_trans; [apply insert_sorted_perm |].
  apply perm_skip. exact IH.
Qed.

Lemma insert_sorted_sorted x l :
  StronglySorted (fun a b => String.leb a b = true) l ->
  StronglySorted (fun a b => String.leb a b = true) (insert_sorted x l).
Proof.
  induction 1 as [| y l Hs IH Hall]; simpl.
  - repeat constructor.
  - destruct (String.leb x y) eqn:E.
    + constructor; [constructor; assumption |].
      constructor; [exact E |].
      eapply Forall_impl; [| exact Hall].
      intros z Hz. eapply str_leb_trans; eassumption.
    + constructor; [exact IH |].
      apply Forall_forall. intros z Hz.
      apply (Permutation_in _ (insert_sorted_perm x l)) in Hz.
      destruct Hz as [<- | Hz].
      * destruct (String.leb_total x y) as [H | H]; congruence.
      * rewrite Forall_forall in Hall. auto.
Qed.

Lemma py_sorted_sorted l :
  StronglySorted (fun a b => String.leb a b = true) (py_sorted l).
Proof.
  induction l as [| x l IH]; simpl; [constructor |].
  apply insert_sorted_sorted. exact IH.
Qed.

Lemma sorted_nodup_strict l :
  NoDup l -> StronglySorted (fun a b => String.leb a b = true) l ->
  StronglySorted str_lt l.
Proof.
  induction 2 as [| x l Hs IH Hall]; [constructor |].
  inversion H as [| ? ? Hnotin Hnd]; subst.
  constructor; [apply IH; exact Hnd |].
  rewrite Forall_forall in *. intros y Hy.
  apply str_leb_neq_lt; [auto |]. intros ->. contradiction.
Qed.

Lemma strict_sorted_NoDup l : StronglySorted str_lt l -> NoDup l.
Proof.
  induction 1 as [| x l Hs IH Hall]; constructor; [| exact IH].
  intros Hin. rewrite Forall_forall in Hall.
  exact (str_lt_irrefl x (Hall _ Hin)).
Qed.

(** A set of strings has one strictly increasing listing. *)
Lemma strict_sorted_unique l1 :
  forall l2,
    StronglySorted str_lt l1 -> StronglySorted str_lt l2 ->
    (forall x, In x l1 <-> In x l2) -> l1 = l2.
Proof.
  induction l1 as [| a l1 IH]; intros [| b l2] H1 H2 Hsame.
  - reflexivity.
  - destruct (proj2 (Hsame b) (or_introl eq_refl)).
  - destruct (proj1 (Hsame a) (or_introl eq_refl)).
  - inversion H1 as [| ? ? Hs1 Ha1]; subst.
    inversion H2 as [| ? ? Hs2 Ha2]; subst.
    rewrite Forall_forall in Ha1, Ha2.
    assert (Hab : a = b).
    { destruct (proj1 (Hsame a) (or_introl eq_refl)) as [E | Ha];
        [congruence |].
      destruct (proj2 (Hsame b) (or_introl eq_refl)) as [E | Hb];
        [congruence |].
      exfalso. apply (str_lt_irrefl a).
      eapply str_lt_trans; [apply Ha1; exact Hb | apply Ha2; exact Ha]. }
    subst b. f_equal. apply IH; try assumption.
    intros x. split; intros Hx.
    + destruct (proj1 (Hsame x) (or_intror Hx)) as [E | Hin]; [| exact Hin].
      subst x. exfalso. exact (str_lt_irrefl a (Ha1 _ Hx)).
    + destruct (proj2 (Hsame x) (or_intror Hx)) as [E | Hin]; [| exact Hin].
      subst x. exfalso. exact (str_lt_irrefl a (Ha2 _ Hx)).
Qed.

Lemma sorted_set_strict {SE : SetEnum} s :
  NoDup s -> StronglySorted str_lt (py_sorted (set_enum s)).
Proof.
  intros Hnd. apply sorted_nodup_strict; [| apply py_sorted_sorted].
  eapply Permutation_NoDup; [| exact Hnd].
  apply Permutation_sym.
  eapply Permutation_trans; [apply py_sorted_perm | apply set_enum_perm].
Qed.

Lemma sorted_set_In {SE : SetEnum} s x :
  In x (py_sorted (set_enum s)) <-> In x s.
Proof.
  assert (P : Permutation (py_sorted (set_enum s)) s).
  { eapply Permutation_trans; [apply py_sorted_perm | apply set_enum_perm]. }
  split; intros H.
  - apply (Permutation_in _ P). exact H.
  - apply (Permutation_in _ (Permutation_sym P)). exact H.
Qed.

(** *** The merged dict while it is built *)

Lemma set_add_In x v s : In x (set_add v s) <-> In x s \/ x = v.
Proof.
  unfold set_add. destruct (mem v s) eqn:E.
  - apply mem_In in E. split; [tauto |]. intros [H | ->]; assumption.
  - rewrite in_app_iff. simpl. split; intros [H | H]; auto.
    + destruct H as [H | []]. auto.
Qed.

Lemma set_add_NoDup v s : NoDup s -> NoDup (set_add v s).
Proof.
  intros Hnd. unfold set_add. destruct (mem v s) eqn:E; [exact Hnd |].
  apply mem_false in E.
  apply (Permutation_NoDup (l := v :: s)).
  - apply Permutation_cons_append.
  - constructor; assumption.
Qed.

Lemma set_add_nonempty v s : set_add v s <> [].
Proof.
  intros H. assert (Hin : In v (set_add v s)) by (apply set_add_In; auto).
  rewrite H in Hin. destruct Hin.
Qed.

Lemma merged_add_listed k v m k' v' :
  listed (merged_add k v m) k' v' <-> listed m k' v' \/ (k' = k /\ v' = v).
Proof.
  unfold listed. induction m as [| [k0 s] rest IH]; simpl.
  - split.
    + intros (s & [H | []] & Hv). injection H as <- <-.
      destruct Hv as [<- | []]. auto.
    + intros [(s & [] & _) | [-> ->]]. exists [v]. simpl. auto.
  - destruct (String.eqb k k0) eqn:E.
    + apply String.eqb_eq in E. subst k0. split.
      * intros (s' & [H | H] & Hv).
        -- injection H as <- <-. apply set_add_In in Hv.
           destruct Hv as [Hv | ->]; [left; exists s | right]; simpl; auto.
        -- left. exists s'. simpl. auto.
      * intros [(s' & [H | H] & Hv) | [-> ->]].
        -- injection H as <- <-. exists (set_add v s). split; [left; auto |].
           apply set_add_In. auto.
        -- exists s'. simpl. auto.
        -- exists (set_add v s). split; [left; auto |].
           apply set_add_In. auto.
    + split.
      * intros (s' & [H | H] & Hv).
        -- left. exists s'. auto.
        -- destruct (proj1 IH (ex_intro _ s' (conj H Hv)))
             as [(s2 & H2 & Hv2) | Hkv];
             [left; exists s2; split; [right; exact H2 | exact Hv2]
             | right; exact Hkv].
      * intros [(s' & [H | H] & Hv) | Hkv].
        -- exists s'. split; [left; exact H | exact Hv].
        -- destruct (proj2 IH (or_introl (ex_intro _ s' (conj H Hv))))
             as (s2 & H2 & Hv2).
           exists s2. split; [right; exact H2 | exact Hv2].
        -- destruct (proj2 IH (or_intror Hkv)) as (s2 & H2 & Hv2).
           exists s2. split; [right; exact H2 | exact Hv2].
Qed.

Lemma merged_add_keys k v m :
  map fst (merged_add k v m)
  = if mem k (map fst m) then map fst m else map fst m ++ [k].
Proof.
  induction m as [| [k0 s] rest IH]; simpl; [reflexivity |].
  destruct (String.eqb k k0) eqn:E; simpl; [reflexivity |].
  rewrite IH. unfold mem. destruct (existsb (String.eqb k) (map fst rest));
    reflexivity.
Qed.

Lemma merged_add_sets k v m k' s' :
  In (k', s') (merged_add k v m) ->
  In (k', s') m \/ (k' = k /\ (s' = [v] \/ exists s, In (k, s) m
                                            /\ s' = set_add v s)).
Proof.
  induction m as [| [k0 s] rest IH]; simpl.
  - intros [H | []]. injection H as <- <-. auto.
  - destruct (String.eqb k k0) eqn:E.
    + apply String.eqb_eq in E. subst k0.
      intros [H | H]; [| auto].
      injection H as <- <-. right. split; [reflexivity |]. right.
      exists s. auto.
    + intros [H | H]; [auto |].
      destruct (IH H) as [Hin | (-> & [-> | (s2 & Hs2 & ->)])]; auto.
      right. split; [reflexivity |]. right. exists s2. auto.
Qed.

Lemma merged_add_well_kept k v m :
  well_kept m -> well_kept (merged_add k v m).
Proof.
  intros [Hk Hs]. split.
  - rewrite merged_add_keys. destruct (mem k (map fst m)) eqn:E;
      [exact Hk |].
    apply mem_false in E.
    apply (Permutation_NoDup (l := k :: map fst m)).
    + apply Permutation_cons_append.
    + constructor; assumption.
  - intros k' s' Hin. apply merged_add_sets in Hin.
    destruct Hin as [Hin | (-> & [-> | (s & Hin & ->)])].
    + eapply Hs; eassumption.
    + split; [repeat constructor; intros [] | discriminate].
    + split; [| apply set_add_nonempty].
      apply set_add_NoDup. exact (proj1 (Hs _ _ Hin)).
Qed.

Section MergeFacts.
Context {SE : SetEnum}.

Lemma merge_values_spec k vals :
  forall m,
    (well_kept m -> well_kept (merge_values k vals m))
    /\ forall k' v', listed (merge_values k vals m) k' v'
                     <-> listed m k' v' \/ (k' = k /\ In v' vals).
Proof.
  unfold merge_values.
  induction vals as [| v vals IH]; intros m; simpl.
  - split; [auto |]. intros k' v'. tauto.
  - destruct (IH (merged_add k v m)) as [IHw IHl]. split.
    + intros Hw. apply IHw. apply merged_add_well_kept. exact Hw.
    + intros k' v'. rewrite IHl, merged_add_listed.
      split; intros H; intuition (subst; auto).
Qed.

Lemma merge_result_spec d :
  forall m,
    (well_kept m -> well_kept (merge_result (Some d) m))
    /\ forall k' v', listed (merge_result (Some d) m) k' v'
                     <-> listed m k' v'
                         \/ exists vals, In (k', vals) d /\ In v' vals.
Proof.
  unfold merge_result.
  induction d as [| [k vals] d IH]; intros m; simpl.
  - split; [auto |]. intros k' v'. split; [auto |].
    intros [H | (vals & [] & _)]. exact H.
  - destruct (IH (merge_values k vals m)) as [IHw IHl].
    destruct (merge_values_spec k vals m) as [Hw Hl]. split.
    + intros H. apply IHw. apply Hw. exact H.
    + intros k' v'. rewrite IHl, Hl. split.
      * intros [[H | [-> Hv]] | (vs & Hin & Hv)]; auto.
        -- right. exists vals. auto.
        -- right. exists vs. auto.
      * intros [H | (vs & [Heq | Hin] & Hv)]; auto.
        -- injection Heq as <- <-. auto.
        -- right. exists vs. auto.
Qed.

Lemma merge_results_spec rs :
  forall m,
    (well_kept m ->
     well_kept (fold_left (fun m r => merge_result r m) rs m))
    /\ forall k' v',
         listed (fold_left (fun m r => merge_result r m) rs m) k' v'
         <-> listed m k' v'
             \/ exists d vals,
                  In (Some d) rs /\ In (k', vals) d /\ In v' vals.
Proof.
  induction rs as [| r rs IH]; intros m; simpl.
  - split; [auto |]. intros k' v'. split; [auto |].
    intros [H | (d & vals & [] & _)]. exact H.
  - destruct (IH (merge_result r m)) as [IHw IHl]. split.
    + intros Hw. apply IHw. destruct r as [d |]; [| exact Hw].
      apply merge_result_spec. exact Hw.
    + intros k' v'. rewrite IHl. destruct r as [d |].
      * rewrite (proj2 (merge_result_spec d m)). split.
        -- intros [[H | (vals & Hin & Hv)] | (d' & vals & Hr & Hin & Hv)];
             auto.
           ++ right. exists d, vals. auto.
           ++ right. exists d', vals. auto.
        -- intros [H | (d' & vals & [Hr | Hr] & Hin & Hv)]; auto.
           ++ injection Hr as <-. left. right. exists vals. auto.
           ++ right. exists d', vals. auto.
      * change (merge_result None m) with m. split.
        -- intros [H | (d' & vals & Hr & Hin & Hv)]; auto.
           right. exists d', vals. auto.
        -- intros [H | (d' & vals & [Hr | Hr] & Hin & Hv)]; auto;
             [discriminate Hr |].
           right. exists d', vals. auto.
Qed.

Lemma well_kept_nil : well_kept [].
Proof. split; [constructor | intros k s []]. Qed.

Lemma merge_iocs_entries rs k vs :
  In (k, vs) (merge_iocs rs) <->
  exists s, In (k, s) (fold_left (fun m r => merge_result r m) rs [])
            /\ vs = py_sorted (set_enum s).
Proof.
  unfold merge_iocs. rewrite in_map_iff. split.
  - intros ([k0 s] & Heq & Hin). injection Heq as <- <-. exists s. auto.
  - intros (s & Hin & ->). exists (k, s). auto.
Qed.

Lemma merge_iocs_keys rs :
  map fst (merge_iocs rs)
  = map fst (fold_left (fun m r => merge_result r m) rs []).
Proof.
  unfold merge_iocs. rewrite map_map. apply map_ext. intros [k s]. reflexivity.
Qed.

End MergeFacts.

Lemma assoc_In {A : Type} k (v : A) d :
  NoDup (map fst d) -> In (k, v) d -> assoc k d = Some v.
Proof.
  induction d as [| [k' v'] d IH]; simpl; [tauto |].
  intros Hnd [H | H].
  - injection H as -> ->. rewrite String.eqb_refl. reflexivity.
  - inversion Hnd as [| ? ? Hnotin Hnd']; subst.
    destruct (String.eqb k k') eqn:E; [| auto].
    apply String.eqb_eq in E. subst k'. exfalso. apply Hnotin.
    apply (in_map fst) in H. exact H.
Qed.

Lemma assoc_Some {A : Type} k (v : A) d : assoc k d = Some v -> In (k, v) d.
Proof.
  induction d as [| [k' v'] d IH]; simpl; [discriminate |].
  destruct (String.eqb k k') eqn:E.
  - apply String.eqb_eq in E. intros [= ->]. subst. auto.
  - auto.
Qed.

Lemma assoc_None {A : Type} k (d : list (string * A)) :
  assoc k d = None -> forall v, ~ In (k, v) d.
Proof.
  intros Hn v Hin. induction d as [| [k' v'] d IH]; simpl in *; [exact Hin |].
  destruct (String.eqb k k') eqn:E; [discriminate |].
  destruct Hin as [H | H]; [| auto].
  injection H as -> ->. rewrite String.eqb_refl in E. discriminate.
Qed.

Lemma keyed_unique {A : Type} k (a b : A) (d : list (string * A)) :
  NoDup (map fst d) -> In (k, a) d -> In (k, b) d -> a = b.
Proof.
  intros Hnd Ha Hb. pose proof (assoc_In _ _ _ Hnd Ha) as E.
  rewrite (assoc_In _ _ _ Hnd Hb) in E. congruence.
Qed.

Section MergeClaims.
Context {SE : SetEnum}.

Lemma merge_iocs_well_kept rs :
  well_kept (fold_left (fun m r => merge_result r m) rs []).
Proof. apply merge_results_spec. apply well_kept_nil. Qed.

Lemma merge_listed_raw rs k v :
  listed (merge_iocs rs) k v
  <-> listed (fold_left (fun m r => merge_result r m) rs []) k v.
Proof.
  unfold listed. split.
  - intros (vs & Hin & Hv). apply merge_iocs_entries in Hin.
    destruct Hin as (s & Hs & ->).
    apply (proj1 (sorted_set_In _ _)) in Hv. exists s. auto.
  - intros (s & Hs & Hv). exists (py_sorted (set_enum s)). split.
    + apply merge_iocs_entries. exists s. auto.
    + apply sorted_set_In. exact Hv.
Qed.

Lemma merge_keys_NoDup rs : NoDup (map fst (merge_iocs rs)).
Proof. rewrite merge_iocs_keys. apply merge_iocs_well_kept. Qed.

Lemma merge_entry_sorted rs k vs :
  In (k, vs) (merge_iocs rs) -> vs <> [] /\ StronglySorted str_lt vs.
Proof.
  intros Hin. apply merge_iocs_entries in Hin.
  destruct Hin as (s & Hin & ->).
  destruct (proj2 (merge_iocs_well_kept rs) _ _ Hin) as [Hnd Hne].
  split; [| apply sorted_set_strict; exact Hnd].
  destruct s as [| x s]; [congruence |]. intros Hnil.
  assert (Hx : In x (py_sorted (set_enum (x :: s))))
    by (apply sorted_set_In; left; reflexivity).
  rewrite Hnil in Hx. destruct Hx.
Qed.

Lemma merge_listed_sources rs k v :
  listed (merge_iocs rs) k v
  <-> exists d vals, In (Some d) rs /\ In (k, vals) d /\ In v vals.
Proof.
  rewrite merge_listed_raw, (proj2 (merge_results_spec rs [])).
  split; [| auto]. intros [(s & [] & _) | H]. exact H.
Qed.

(** X10.  [merge_iocs] collects every value and invents none: a value is
    listed under a key of the merged dict exactly when some result lists it
    under that key; results that are [None] or empty add nothing. *)
Theorem merge_iocs_collects_every_value (rs : list (option ioc_dict))
    (k v : string) :
  (listed (merge_iocs rs) k v
   <-> exists d vals, In (Some d) rs /\ In (k, vals) d /\ In v vals)
  /\ merge_iocs (None :: Some [] :: rs) = merge_iocs rs.
Proof.
  split; [| reflexivity].
  rewrite merge_listed_raw, (proj2 (merge_results_spec rs [])).
  split; [| auto]. intros [(s & [] & _) | H]. exact H.
Qed.

(** X11.  The merged dict has each key once, and the list under a key is
    never empty and is strictly increasing, so it holds no value twice.  A
    key under which every result has an empty list is therefore absent. *)
Theorem merge_iocs_lists_are_sorted_sets (rs : list (option ioc_dict)) :
  NoDup (map fst (merge_iocs rs))
  /\ forall k vs, In (k, vs) (merge_iocs rs) ->
                  vs <> [] /\ StronglySorted str_lt vs /\ NoDup vs.
Proof.
  split; [apply merge_keys_NoDup |].
  intros k vs Hin. destruct (merge_entry_sorted _ _ _ Hin) as [Hne Hst].
  split; [exact Hne |]. split; [exact Hst |].
  apply strict_sorted_NoDup. exact Hst.
Qed.

End MergeClaims.




(** X12.  The result of [merge_iocs] does not depend on the order of the
    results nor on the order in which sets are enumerated: two runs on the
    same results, taken in any order, list the same values under every
    key. *)
Theorem merge_iocs_ignores_order (SE1 SE2 : SetEnum)
    (rs rs' : list (option ioc_dict)) (k : string) :
  Permutation rs rs' ->
  assoc k (@merge_iocs SE1 rs) = assoc k (@merge_iocs SE2 rs').
Proof.
  intros Hp.
  pose proof (@merge_keys_NoDup SE1 rs) as Hk1.
  pose proof (@merge_keys_NoDup SE2 rs') as Hk2.
  pose proof (@merge_entry_sorted SE1 rs) as Hs1.
  pose proof (@merge_entry_sorted SE2 rs') as Hs2.
  assert (Hsame : forall v, listed (@merge_iocs SE1 rs) k v
                            <-> listed (@merge_iocs SE2 rs') k v).
  { intros v. rewrite !merge_listed_sources.
    split; intros (d & vals & Hin & H); exists d, vals; split; auto.
    - apply (Permutation_in _ Hp). exact Hin.
    - apply (Permutation_in _ (Permutation_sym Hp)). exact Hin. }
  destruct (assoc k (@merge_iocs SE1 rs)) as [vs1 |] eqn:E1;
    destruct (assoc k (@merge_iocs SE2 rs')) as [vs2 |] eqn:E2.
  - f_equal. apply assoc_Some in E1, E2.
    apply strict_sorted_unique;
      [apply (Hs1 _ _ E1) | apply (Hs2 _ _ E2) |].
    intros x. split; intros Hx.
    + destruct (proj1 (Hsame x) (ex_intro _ vs1 (conj E1 Hx)))
        as (s & Hs & Hv).
      rewrite (keyed_unique _ _ _ _ Hk2 E2 Hs). exact Hv.
    + destruct (proj2 (Hsame x) (ex_intro _ vs2 (conj E2 Hx)))
        as (s & Hs & Hv).
      rewrite (keyed_unique _ _ _ _ Hk1 E1 Hs). exact Hv.
  - exfalso. apply assoc_Some in E1.
    destruct (Hs1 _ _ E1) as (Hne & _).
    destruct vs1 as [| x vs1]; [congruence |].
    destruct (proj1 (Hsame x) (ex_intro _ _ (conj E1 (or_introl eq_refl))))
      as (s & Hs & _).
    exact (assoc_None _ _ E2 _ Hs).
  - exfalso. apply assoc_Some in E2.
    destruct (Hs2 _ _ E2) as (Hne & _).
    destruct vs2 as [| x vs2]; [congruence |].
    destruct (proj2 (Hsame x) (ex_intro _ _ (conj E2 (or_introl eq_refl))))
      as (s & Hs & _).
    exact (assoc_None _ _ E1 _ Hs).
  - reflexivity.
Qed.

Lemma merge_iocs_ignores_order_witness :
  Permutation [scan_a; scan_b] [scan_b; scan_a]
  /\ assoc "ipv4" (@merge_iocs insertion_enum [scan_a; scan_b])
     = assoc "ipv4" (@merge_iocs reversed_enum [scan_b; scan_a]).
Proof.
  split; [apply perm_swap |].
  apply (merge_iocs_ignores_order insertion_enum reversed_enum).
  apply perm_swap.
Defined.




(** ** The endpoint [zpa_diff] *)

Example scenario_zpa_diff :
  @zpa_diff insertion_order env_unset html_reply zpa0
    [("a", JObj [("x", JInt 2)])] (Some [("a", JObj [("x", JInt 1)])]) true dw0
  = (Done (mk_diff_response [mk_op replace "/a/x" (Some (JInt 2))]
             ["REPLACE /a/x"] 1),
     mk_diff_world 1 []).
Proof. reflexivity. Qed.

Section ZpaDiffFacts.
Context {KO : KeySetOrder}.
Variable getenv : string -> option string.
Variable zpa_session_get : zpa_request -> zpa_reply.
Variable zpa : ZPAConnector.

Lemma get_current_policies_run w :
  get_current_policies getenv zpa_session_get zpa w
  = match zpa_session_get (policies_request getenv zpa) with
    | ZpaFailed e =>
        (Thrown (HttpError e),
         mk_diff_world (ZPA_DIFFS w)
           (zpa_requests w ++ [policies_request getenv zpa]))
    | ZpaResponse code ct text parsed =>
        (match answer_data ct text parsed with
         | Some d => Done (JObj [("status_code", JInt code); ("data", d)])
         | None => Thrown (JSONDecodeError text)
         end,
         mk_diff_world (ZPA_DIFFS w)
           (zpa_requests w ++ [policies_request getenv zpa]))
    end.
Proof.
  unfold get_current_policies, zpa_get, policies_request, answer_data.
  cbn [req_url req_headers req_params].
  destruct (zpa_session_get _) as [e | code ct text parsed]; [reflexivity |].
  destruct (String.prefix _ _); [| reflexivity].
  destruct parsed; reflexivity.
Qed.

(** X14.  Whenever [zpa_diff] returns, [changes] is the number of
    operations of the patch and of lines of the summary, the summary is that
    of the patch, and the counter of diffs has moved by one.  It fails only
    where no [current] was supplied and a fetch was asked for, and then the
    counter has not moved. *)
Theorem zpa_diff_counts_changes (desired : list (string * json))
    (current : option (list (string * json))) (fetch_current : bool)
    (w : diff_world) :
  match zpa_diff getenv zpa_session_get zpa desired current fetch_current w
  with
  | (Done r, w') =>
      changes r = List.length (patch r)
      /\ List.length (summary r) = changes r
      /\ summary r = summarize_patch (patch r)
      /\ ZPA_DIFFS w' = S (ZPA_DIFFS w)
  | (Thrown _, w') =>
      current = None /\ fetch_current = true /\ ZPA_DIFFS w' = ZPA_DIFFS w
  end.
Proof.
  unfold zpa_diff.
  destruct current as [c |].
  - cbn. repeat split. unfold summarize_patch. apply length_map.
  - destruct fetch_current.
    + rewrite get_current_policies_run.
      destruct (zpa_session_get _) as [e | code ct text parsed].
      * cbn. auto.
      * destruct (answer_data ct text parsed) as [d |]; cbn.
        -- repeat split. unfold summarize_patch. apply length_map.
        -- auto.
    + cbn. repeat split. unfold summarize_patch. apply length_map.
Qed.

(** X15.  [zpa_diff] asks the provider at most once, and only when no
    [current] was supplied and a fetch was asked for: a [current] given by
    the caller, even an empty one, is never replaced by a fetched one. *)
Theorem zpa_diff_fetches_only_when_asked (desired : list (string * json))
    (current : option (list (string * json))) (fetch_current : bool)
    (w : diff_world) :
  zpa_requests
    (snd (zpa_diff getenv zpa_session_get zpa desired current fetch_current w))
  = zpa_requests w
    ++ match current with
       | None =>
           if fetch_current then [policies_request getenv zpa] else []
       | Some _ => []
       end.
Proof.
  unfold zpa_diff.
  destruct current as [c |]; [cbn; rewrite app_nil_r; reflexivity |].
  destruct fetch_current; [| cbn; rewrite app_nil_r; reflexivity].
  rewrite get_current_policies_run.
  destruct (zpa_session_get _) as [e | code ct text parsed]; [reflexivity |].
  destruct (answer_data ct text parsed); reflexivity.
Qed.

Lemma make_patch_from_empty (n : list (string * json)) :
  make_patch (JObj []) (JObj n)
  = map (fun p => mk_op add (_path [] (fst p)) (Some (snd p))) n.
Proof.
  unfold make_patch.
  rewrite _diff_mappings, keys_minus_subset by (intros k []).
  simpl. induction n as [| [k v] n IH]; [reflexivity |].
  simpl. rewrite IH. reflexivity.
Qed.

(** X16.  With no [current], or an empty one, and no fetch, everything
    desired is new: the patch is one [add] per top-level key of [desired], in
    the order of [desired], each carrying the whole value of its key, and
    [changes] is the number of those keys. *)
Theorem zpa_diff_without_current_adds_every_key
    (desired : list (string * json))
    (current : option (list (string * json))) (w : diff_world) :
  current = None \/ current = Some [] ->
  zpa_diff getenv zpa_session_get zpa desired current false w
  = (Done (mk_diff_response
             (map (fun p => mk_op add (_path [] (fst p)) (Some (snd p)))
                  desired)
             (map (fun p => ("ADD " ++ _path [] (fst p))%string) desired)
             (List.length desired)),
     mk_diff_world (S (ZPA_DIFFS w)) (zpa_requests w)).
Proof.
  intros [-> | ->]; unfold zpa_diff; cbn [py_truthy is_nil negb];
    rewrite make_patch_from_empty;
    unfold summarize_patch; rewrite map_map, length_map; reflexivity.
Qed.

(** X17.  When the current state is fetched and the answer is not a mapping
    (a body that is not announced as JSON and so is taken as text, or a JSON
    body that is a list, a string or a number) and is not empty, the patch
    is a single [replace] of the root by the whole of [desired]. *)
Theorem zpa_diff_non_mapping_answer_replaces_root
    (desired : list (string * json)) (w : diff_world)
    (code : Z) (ct : option string) (text : string) (parsed : option json)
    (data : json) :
  zpa_session_get (policies_request getenv zpa)
  = ZpaResponse code ct text parsed ->
  answer_data ct text parsed = Some data ->
  py_truthy data = true ->
  py_type data <> dict_t ->
  zpa_diff getenv zpa_session_get zpa desired None true w
  = (Done (mk_diff_response [mk_op replace "/" (Some (JObj desired))]
             ["REPLACE /"] 1),
     mk_diff_world (S (ZPA_DIFFS w))
       (zpa_requests w ++ [policies_request getenv zpa])).
Proof.
  intros Hget Hdata Htruthy Hnd. unfold zpa_diff.
  rewrite get_current_policies_run, Hget, Hdata.
  cbn [lookup String.eqb Ascii.eqb Bool.eqb]. rewrite Htruthy.
  unfold make_patch.
  rewrite _diff_type_mismatch
    by (destruct data; try reflexivity; exfalso; apply Hnd; reflexivity).
  reflexivity.
Qed.

(** X18.  When the supplied [current] is the desired mapping itself and
    no NaN is stored under a key of it or of a mapping nested in it through
    keys (a NaN inside a sequence may be there), the patch and the summary
    are empty and [changes] is [0]. *)
Theorem zpa_diff_of_desired_is_empty (desired : list (string * json))
    (fetch_current : bool) (w : diff_world) :
  wf_json (JObj desired) = true ->
  nan_at_key (JObj desired) = false ->
  zpa_diff getenv zpa_session_get zpa desired (Some desired) fetch_current w
  = (Done (mk_diff_response [] [] 0),
     mk_diff_world (S (ZPA_DIFFS w)) (zpa_requests w)).
Proof.
  intros Hwf Hnan. unfold zpa_diff.
  assert (Hp : make_patch
                 (if py_truthy (JObj desired) then JObj desired else JObj [])
                 (JObj desired) = []).
  { destruct desired as [| p d]; unfold make_patch.
    - apply _diff_same; reflexivity.
    - cbn [py_truthy is_nil negb]. apply _diff_same; assumption. }
  cbv zeta. rewrite Hp. reflexivity.
Qed.

End ZpaDiffFacts.

Lemma zpa_diff_without_current_adds_every_key_witness :
  @zpa_diff insertion_order env_unset html_reply zpa0
    [("a", JInt 1); ("b/c", JNull)] None false dw0
  = (Done (mk_diff_response
             [mk_op add "/a" (Some (JInt 1)); mk_op add "/b~1c" (Some JNull)]
             ["ADD /a"; "ADD /b~1c"] 2),
     mk_diff_world 1 []).
Proof.
  apply (zpa_diff_without_current_adds_every_key (KO := insertion_order)
           env_unset html_reply zpa0 [("a", JInt 1); ("b/c", JNull)] None dw0).
  left. reflexivity.
Defined.

Lemma zpa_diff_non_mapping_answer_replaces_root_witness :
  @zpa_diff insertion_order env_unset html_reply zpa0
    [("a", JInt 1)] None true dw0
  = (Done (mk_diff_response [mk_op replace "/" (Some (JObj [("a", JInt 1)]))]
             ["REPLACE /"] 1),
     mk_diff_world 1 [policies_request env_unset zpa0]).
Proof.
  apply (zpa_diff_non_mapping_answer_replaces_root (KO := insertion_order)
           env_unset html_reply zpa0 [("a", JInt 1)] dw0 502%Z
           (Some "text/html") "<html>Bad Gateway</html>" None
           (JStr "<html>Bad Gateway</html>")).
  - reflexivity.
  - reflexivity.
  - reflexivity.
  - discriminate.
Defined.

Lemma zpa_diff_of_desired_is_empty_witness :
  wf_json (JObj [("name", JStr "segment"); ("weights", JArr [JNaN 0])]) = true
  /\ nan_at_key (JObj [("name", JStr "segment"); ("weights", JArr [JNaN 0])])
     = false
  /\ @zpa_diff insertion_order env_unset html_reply zpa0
       [("name", JStr "segment"); ("weights", JArr [JNaN 0])]
       (Some [("name", JStr "segment"); ("weights", JArr [JNaN 0])]) true dw0
     = (Done (mk_diff_response [] [] 0), mk_diff_world 1 []).
Proof.
  split; [reflexivity |]. split; [reflexivity |].
  apply (zpa_diff_of_desired_is_empty (KO := insertion_order)
           env_unset html_reply zpa0
           [("name", JStr "segment"); ("weights", JArr [JNaN 0])] true dw0).
  - reflexivity.
  - reflexivity.
Defined.

(** ** markdown.py: [ioc_table] *)

Example ioc_table_of_nothing :
  @ioc_table insertion_enum [] = "_No indicators extracted._".
Proof. reflexivity. Qed.

(** A dict that has keys but no values is not empty: its table is the bare
    header. *)
Example ioc_table_of_empty_lists :
  @ioc_rows insertion_enum [("ipv4", [])] = ["| Type | Value |"; "|---|---|"].
Proof. reflexivity. Qed.





Section MarkdownFacts.
Context {SE : SetEnum}.






End MarkdownFacts.



(** ** utils/jira_map.py *)

Example load_map_of_sample_file :
  load_map (Some fieldmap_file)
  = Returned
      [("project_key", JStr "NET");
       ("default_issue_type", JStr "Task");
       ("default_labels", JArr [JStr "BLUE-SWARM"; JStr "TRIAGE"]);
       ("components", JArr [JStr "Security"]);
       ("priority_map", JObj [("critical", JStr "P1")]);
       ("custom_fields", JObj [])].
Proof. reflexivity. Qed.

Example load_map_of_bad_priority_map :
  load_map (Some (JObj [("priority_map", JStr "high")]))
  = Raised (AttributeError "'str' object has no attribute 'update'").
Proof. reflexivity. Qed.

Lemma lookup_dict_set k k' v d :
  lookup k (dict_set k' v d)
  = if String.eqb k k' then Some v else lookup k d.
Proof.
  induction d as [| [k0 v0] d IH]; simpl.
  - destruct (String.eqb k k'); reflexivity.
  - destruct (String.eqb k' k0) eqn:E0; simpl.
    + apply String.eqb_eq in E0. subst k0.
      destruct (String.eqb k k'); reflexivity.
    + rewrite IH. destruct (String.eqb k k0) eqn:E1; [| reflexivity].
      apply String.eqb_eq in E1. subst k0.
      rewrite String.eqb_sym, E0. reflexivity.
Qed.

Lemma dict_set_same k v d : lookup k d = Some v -> dict_set k v d = d.
Proof.
  induction d as [| [k0 v0] d IH]; simpl; [discriminate |].
  destruct (String.eqb k k0) eqn:E.
  - intros [= ->]. reflexivity.
  - intros H. rewrite (IH H). reflexivity.
Qed.

Lemma lookup_dict_update k u :
  NoDup (keys u) ->
  forall d,
    lookup k (dict_update d u)
    = match lookup k u with Some v => Some v | None => lookup k d end.
Proof.
  unfold dict_update.
  induction u as [| [k0 v0] u IH]; intros Hnd d; simpl; [reflexivity |].
  inversion Hnd as [| ? ? Hnotin Hnd']; subst.
  rewrite (IH Hnd'), lookup_dict_set.
  destruct (String.eqb k k0) eqn:E; [| reflexivity].
  apply String.eqb_eq in E. subst k0.
  apply lookup_None in Hnotin. rewrite Hnotin. reflexivity.
Qed.

Lemma dict_update_same u :
  forall d,
    (forall k v, In (k, v) u -> lookup k d = Some v) -> dict_update d u = d.
Proof.
  unfold dict_update.
  induction u as [| [k0 v0] u IH]; intros d H; simpl; [reflexivity |].
  rewrite (dict_set_same k0 v0 d) by (apply H; left; reflexivity).
  apply IH. intros k v Hin. apply H. right. exact Hin.
Qed.

Lemma filter_keys_NoDup (f : string * json -> bool) d :
  NoDup (keys d) -> NoDup (keys (filter f d)).
Proof.
  induction d as [| [k v] d IH]; simpl; [auto |].
  intros Hnd. inversion Hnd as [| ? ? Hnotin Hnd']; subst.
  destruct (f (k, v)); simpl; [| auto].
  constructor; [| auto].
  intros Hin. apply Hnotin. apply In_keys in Hin. destruct Hin as (w & Hw).
  apply filter_In in Hw. destruct Hw as [Hw _].
  apply (in_map fst) in Hw. exact Hw.
Qed.

Lemma lookup_non_null k d :
  NoDup (keys d) ->
  lookup k (filter (fun kv : string * json => negb (is_null (snd kv))) d)
  = match lookup k d with
    | Some v => if is_null v then None else Some v
    | None => None
    end.
Proof.
  induction d as [| [k0 v0] d IH]; simpl; [reflexivity |].
  intros Hnd. inversion Hnd as [| ? ? Hnotin Hnd']; subst.
  destruct (String.eqb k k0) eqn:E.
  - apply String.eqb_eq in E. subst k0.
    destruct (is_null v0) eqn:En; simpl.
    + rewrite (IH Hnd'). apply lookup_None in Hnotin. rewrite Hnotin.
      reflexivity.
    + rewrite String.eqb_refl. reflexivity.
  - destruct (is_null v0); simpl; [| rewrite E]; apply IH; exact Hnd'.
Qed.

(** What [out] is after the first update of [load_map]. *)
Lemma lookup_overridden k data :
  NoDup (keys data) ->
  lookup k (dict_update DEFAULT
              (filter (fun kv : string * json => negb (is_null (snd kv)))
                      data))
  = match lookup k data with
    | Some v => if is_null v then lookup k DEFAULT else Some v
    | None => lookup k DEFAULT
    end.
Proof.
  intros Hnd.
  rewrite lookup_dict_update by (apply filter_keys_NoDup; exact Hnd).
  rewrite (lookup_non_null k data Hnd).
  destruct (lookup k data) as [v |]; [| reflexivity].
  destruct (is_null v); reflexivity.
Qed.

Lemma update_nested_noop key target data out :
  wf_json (JObj data) = true ->
  nested_ok key data = true ->
  lookup key DEFAULT = Some (JObj target) ->
  (forall k, lookup k out
             = match lookup k data with
               | Some v => if is_null v then lookup k DEFAULT else Some v
               | None => lookup k DEFAULT
               end) ->
  update_nested key data out = Returned out.
Proof.
  intros Hwf Hok Hdef Hout. unfold update_nested, nested_ok in *.
  specialize (Hout key).
  destruct (lookup key data) as [dv |] eqn:Ed; [| reflexivity].
  destruct dv as [ | | | | | | u | | ]; try discriminate Hok.
  - cbn [is_null] in Hout. rewrite Hout, Hdef. cbn [py_truthy].
    unfold dict_update. cbn [fold_left].
    rewrite dict_set_same by (rewrite Hout; exact Hdef).
    reflexivity.
  - cbn [is_null] in Hout. rewrite Hout.
    assert (Hu : NoDup (keys u)).
    { apply wf_JObj in Hwf. destruct Hwf as [_ Hall].
      rewrite Forall_forall in Hall.
      pose proof (Hall _ (lookup_In _ _ _ Ed)) as Hw. simpl in Hw.
      apply (wf_JObj u Hw). }
    destruct u as [| p u'].
    + cbn [py_truthy is_nil negb]. unfold dict_update. cbn [fold_left].
      rewrite dict_set_same by exact Hout. reflexivity.
    + cbn [py_truthy is_nil negb].
      rewrite dict_update_same
        by (intros k v Hin; apply In_lookup; assumption).
      rewrite dict_set_same by exact Hout. reflexivity.
Qed.

Lemma load_map_ok data :
  wf_json (JObj data) = true ->
  nested_ok "priority_map" data = true ->
  nested_ok "custom_fields" data = true ->
  load_map (Some (JObj data))
  = Returned (dict_update DEFAULT
                (filter (fun kv : string * json => negb (is_null (snd kv)))
                        data)).
Proof.
  intros Hwf Hpm Hcf.
  assert (Hnd : NoDup (keys data)) by (apply (wf_JObj data Hwf)).
  assert (Hshape :
    match (if py_truthy (JObj data) then JObj data else JObj []) with
    | JObj d => d = data
    | _ => False
    end).
  { destruct data; reflexivity. }
  unfold load_map.
  destruct (if py_truthy (JObj data) then JObj data else JObj [])
    as [ | | | | | | d | | ]; try contradiction.
  subst d.
  rewrite (update_nested_noop "priority_map" _ data _ Hwf Hpm eq_refl)
    by (intros k; apply lookup_overridden; exact Hnd).
  rewrite (update_nested_noop "custom_fields" _ data _ Hwf Hcf eq_refl)
    by (intros k; apply lookup_overridden; exact Hnd).
  reflexivity.
Qed.

(** X21.  [load_map] on a file that holds a mapping: every key that the
    file gives a value other than null replaces the default of that key, as
    a whole, and every other key keeps its default.  This is so whenever
    [priority_map] and [custom_fields], if the file has them, are mappings
    or null. *)
Theorem load_map_overrides_key_by_key (data : list (string * json)) :
  wf_json (JObj data) = true ->
  nested_ok "priority_map" data = true ->
  nested_ok "custom_fields" data = true ->
  exists out,
    load_map (Some (JObj data)) = Returned out
    /\ forall k,
         lookup k out
         = match lookup k data with
           | Some v => if is_null v then lookup k DEFAULT else Some v
           | None => lookup k DEFAULT
           end.
Proof.
  intros Hwf Hpm Hcf. eexists. split.
  - apply load_map_ok; assumption.
  - intros k. apply lookup_overridden. apply (wf_JObj data Hwf).
Qed.

Lemma load_map_overrides_key_by_key_witness :
  wf_json fieldmap_file = true
  /\ exists out,
       load_map (Some fieldmap_file) = Returned out
       /\ lookup "project_key" out = Some (JStr "NET")
       /\ lookup "components" out = Some (JArr [JStr "Security"]).
Proof.
  split; [reflexivity |].
  destruct (load_map_overrides_key_by_key
              [("project_key", JStr "NET"); ("components", JNull);
               ("priority_map", JObj [("critical", JStr "P1")])]
              eq_refl eq_refl eq_refl) as (out & Hrun & Hout).
  exists out. split; [exact Hrun |].
  split; [rewrite Hout; reflexivity | rewrite Hout; reflexivity].
Defined.



(** X23.  A [priority_map] in the file replaces the default one, it does
    not extend it: after [load_map], [map_priority] answers from the map of
    the file alone, so a severity that the file leaves out maps to [None]
    even where the defaults had a priority for it. *)
Theorem file_priority_map_replaces_default (py_lower : string -> string)
    (data pm : list (string * json)) (sev : string) :
  wf_json (JObj data) = true ->
  lookup "priority_map" data = Some (JObj pm) ->
  nested_ok "custom_fields" data = true ->
  sev <> "" ->
  exists out,
    load_map (Some (JObj data)) = Returned out
    /\ map_priority py_lower sev out
       = Returned (match lookup (py_lower sev) pm with
                   | Some p => p
                   | None => JNull
                   end).
Proof.
  intros Hwf Hpm Hcf Hsev.
  assert (Hok : nested_ok "priority_map" data = true)
    by (unfold nested_ok; rewrite Hpm; reflexivity).
  eexists. split; [apply load_map_ok; assumption |].
  unfold map_priority.
  apply String.eqb_neq in Hsev. rewrite Hsev.
  rewrite (lookup_overridden "priority_map" data (proj1 (wf_JObj data Hwf))).
  rewrite Hpm. reflexivity.
Qed.

Lemma file_priority_map_replaces_default_witness :
  wf_json fieldmap_file = true
  /\ "HIGH" <> ""
  /\ map_priority lower "HIGH" DEFAULT = Returned (JStr "High")
  /\ exists out,
       load_map (Some fieldmap_file) = Returned out
       /\ map_priority lower "HIGH" out = Returned JNull.
Proof.
  assert (Hsev : "HIGH" <> "") by discriminate.
  split; [reflexivity |]. split; [exact Hsev |]. split; [reflexivity |].
  exact (file_priority_map_replaces_default lower
           [("project_key", JStr "NET"); ("components", JNull);
            ("priority_map", JObj [("critical", JStr "P1")])]
           [("critical", JStr "P1")] "HIGH" eq_refl eq_refl eq_refl Hsev).
Defined.
